(** * hoocall: the browser chat client [apps/web/static/js/chat.js]

    A shallow embedding of the script's event handlers.

    - JavaScript strings are sequences of UTF-16 code units ([list N]).
    - The page is a record [World] of the DOM elements the script binds to,
      its three module-level variables, and a trace of the platform calls
      the script makes (fetch, alert, getUserMedia, recorder start/stop).
    - An [async] function is a state transformer that runs to its next
      [await] and returns the suspended rest ([Async]); [run] drives such a
      handler to completion against an environment that answers the awaits.
    - Closures stored in the page ([li.onclick], the recorder's handlers)
      are defunctionalised ([Closure]). *)

From Stdlib Require Import List NArith ZArith Bool String Ascii Lia.
From Stdlib Require Decimal DecimalPos.
Import ListNotations.

Local Open Scope N_scope.
Set Warnings "-register-all".

(** ** JavaScript strings *)

Module JsString.

Definition jsstring := list N.

(** An ASCII literal as code units. *)
Fixpoint lit (s : string) : jsstring :=
  match s with
  | EmptyString => []
  | String c r => N_of_ascii c :: lit r
  end.

(** WhiteSpace and LineTerminator code units (ECMA-262, 12.2 and 12.3);
    these are what [String.prototype.trim] and [parseInt] strip. *)
Definition is_ws (c : N) : bool :=
  (9 <=? c) && (c <=? 13)
  || (c =? 32) || (c =? 160) || (c =? 5760)
  || (8192 <=? c) && (c <=? 8202)
  || (c =? 8232) || (c =? 8233) || (c =? 8239) || (c =? 8287)
  || (c =? 12288) || (c =? 65279).

Fixpoint trimStart (s : jsstring) : jsstring :=
  match s with
  | c :: r => if is_ws c then trimStart r else s
  | [] => []
  end.

Definition trimEnd (s : jsstring) : jsstring := rev (trimStart (rev s)).

Definition trim (s : jsstring) : jsstring := trimEnd (trimStart s).

(** ToBoolean on a string: the empty string is the only falsy one. *)
Definition truthy (s : jsstring) : bool :=
  match s with [] => false | _ :: _ => true end.

Definition eqb (a b : jsstring) : bool :=
  if list_eq_dec N.eq_dec a b then true else false.

End JsString.
Export JsString.

(** ** Numbers, as far as the script uses them

    The script only handles numbers that come out of [parseInt(_, 10)] or
    that are integer ids of the backend.  [Int z] stands for the Number
    whose value is the integer [z]; the embedding is exact for
    [|z| < 2^53], where doubles represent every integer and ToString
    prints plain decimal digits. *)

Module JsNumber.

Inductive jsnum := NaN | Int (z : Z).

Definition is_digit (c : N) : bool := (48 <=? c) && (c <=? 57).

(** The longest prefix of decimal digits, accumulated left to right. *)
Fixpoint digits (acc : option Z) (s : jsstring) : option Z :=
  match s with
  | c :: r =>
      if is_digit c
      then digits (Some (10 * match acc with Some a => a | None => 0 end
                         + Z.of_N (c - 48))%Z) r
      else acc
  | [] => acc
  end.

(** [parseInt(s, 10)], step by step as ECMA-262 gives it: leading white
    space is skipped, one sign is read, then the longest run of digits; no
    digit at all gives NaN. *)
Definition parseInt10 (s : jsstring) : jsnum :=
  let t := trimStart s in
  let sign : Z :=
    match t with
    | c :: _ => if c =? 45 then (-1)%Z else 1%Z
    | [] => 1%Z
    end in
  let t :=
    match t with
    | c :: r => if (c =? 43) || (c =? 45) then r else t
    | [] => t
    end in
  match digits None t with
  | Some z => Int (sign * z)
  | None => NaN
  end.

Fixpoint uint_units (d : Decimal.uint) : jsstring :=
  match d with
  | Decimal.Nil => []
  | Decimal.D0 r => 48 :: uint_units r
  | Decimal.D1 r => 49 :: uint_units r
  | Decimal.D2 r => 50 :: uint_units r
  | Decimal.D3 r => 51 :: uint_units r
  | Decimal.D4 r => 52 :: uint_units r
  | Decimal.D5 r => 53 :: uint_units r
  | Decimal.D6 r => 54 :: uint_units r
  | Decimal.D7 r => 55 :: uint_units r
  | Decimal.D8 r => 56 :: uint_units r
  | Decimal.D9 r => 57 :: uint_units r
  end.

(** ToString on a number. *)
Definition toString (n : jsnum) : jsstring :=
  match n with
  | NaN => lit "NaN"
  | Int z =>
      match Z.to_int z with
      | Decimal.Pos d => uint_units d
      | Decimal.Neg d => 45 :: uint_units d
      end
  end.


End JsNumber.
Export JsNumber.

(** ** JSON.stringify, for the values the chat request carries *)

Module Json.

Inductive jsval :=
| VNum (n : jsnum)
| VStr (s : jsstring)
| VBool (b : bool).

Definition hex_digit (n : N) : N := if n <? 10 then 48 + n else 87 + n.

(** UnicodeEscape: backslash, u and four lower-case hex digits. *)
Definition unicode_escape (c : N) : jsstring :=
  [92; 117; hex_digit (c / 4096 mod 16); hex_digit (c / 256 mod 16);
   hex_digit (c / 16 mod 16); hex_digit (c mod 16)].

Definition is_high (c : N) : bool := (55296 <=? c) && (c <=? 56319).
Definition is_low (c : N) : bool := (56320 <=? c) && (c <=? 57343).

(** The body of QuoteJSONString: the short escapes, control characters and
    lone surrogates as \uXXXX, everything else as it is. *)
Fixpoint quote_units (s : jsstring) : jsstring :=
  match s with
  | [] => []
  | c :: r =>
      if c =? 8 then 92 :: 98 :: quote_units r
      else if c =? 9 then 92 :: 116 :: quote_units r
      else if c =? 10 then 92 :: 110 :: quote_units r
      else if c =? 12 then 92 :: 102 :: quote_units r
      else if c =? 13 then 92 :: 114 :: quote_units r
      else if c =? 34 then 92 :: 34 :: quote_units r
      else if c =? 92 then 92 :: 92 :: quote_units r
      else if c <? 32 then unicode_escape c ++ quote_units r
      else if is_high c then
        match r with
        | d :: r' =>
            if is_low d then c :: d :: quote_units r'
            else unicode_escape c ++ quote_units r
        | [] => unicode_escape c
        end
      else if is_low c then unicode_escape c ++ quote_units r
      else c :: quote_units r
  end.

Definition quote (s : jsstring) : jsstring := 34 :: quote_units s ++ [34].

(** SerializeJSONProperty: a number that is not finite is written null. *)
Definition stringify_val (v : jsval) : jsstring :=
  match v with
  | VNum NaN => lit "null"
  | VNum n => toString n
  | VStr s => quote s
  | VBool true => lit "true"
  | VBool false => lit "false"
  end.

Fixpoint stringify_fields (fs : list (jsstring * jsval)) : jsstring :=
  match fs with
  | [] => []
  | [(k, v)] => quote k ++ 58 :: stringify_val v
  | (k, v) :: r => quote k ++ 58 :: stringify_val v ++ 44 :: stringify_fields r
  end.

(** [JSON.stringify] of an object literal with the given own properties. *)
Definition stringify (fs : list (jsstring * jsval)) : jsstring :=
  123 :: stringify_fields fs ++ [125].

End Json.

(** ** The page and the script *)

Module Chat.

(** *** What the backend sends (section 6 of the specification) *)

Record Conversation := mkConversation {
  id : Z;
  title : jsstring;
  created_at : jsstring
}.

(** The fields are strings, as the interface table gives them; a field
    the script guards with [||] or [if] is optional, [None] when it is
    missing or null. *)
Record Message := mkMessage {
  role : jsstring;
  content : option jsstring;
  audio_path : option jsstring
}.

Record ChatData := mkChatData {
  chat_reply : option jsstring
}.

Record SayData := mkSayData {
  transcript : option jsstring;
  audio_url : option jsstring;
  reply : option jsstring
}.

(** *** Requests *)

Record Blob := mkBlob {
  blob_bytes : list N;
  blob_type : jsstring
}.

(** [new Blob(parts, { type })]: the parts' bytes, in order. *)
Definition new_Blob (parts : list Blob) (type : jsstring) : Blob :=
  mkBlob (List.concat (map blob_bytes parts)) type.

Inductive FormValue :=
| FString (s : jsstring)
| FFile (b : Blob) (filename : jsstring).

Inductive Body :=
| NoBody
| TextBody (s : jsstring)
| FormBody (fd : list (jsstring * FormValue)).

Record Request := mkRequest {
  url : jsstring;
  method : jsstring;
  headers : list (jsstring * jsstring);
  body : Body
}.

Record Response := mkResponse {
  res_url : jsstring
}.

Record MediaStream := mkMediaStream {
  stream_id : N
}.

(** *** The elements the script builds *)

Inductive Child :=
| Br
| Div (className innerHTML : jsstring).

Record Bubble := mkBubble {
  b_className : jsstring;
  b_textContent : jsstring;
  b_children : list Child
}.

(** The function values the script stores in the page. *)
Inductive Closure :=
| ClSelect (c : Conversation)   (* li.onclick, closed over c *)
| ClPushChunk                   (* e => chunks.push(e.data) *)
| ClUpload.                     (* the recorder's onstop *)

Record Li := mkLi {
  li_textContent : jsstring;
  li_cursor : jsstring;
  li_onclick : option Closure
}.

Inductive RecState := Inactive | Recording | Paused.

Definition is_inactive (s : RecState) : bool :=
  match s with Inactive => true | _ => false end.

Record MediaRecorder := mkRecorder {
  state : RecState;
  stream : MediaStream;
  ondataavailable : option Closure;
  onstop : option Closure
}.

(** Events the platform queues on the recorder when it is stopped. *)
Inductive RecEvent := EvDataAvailable | EvStop.

(** Calls into the platform, in the order the script makes them. *)
Inductive Call :=
| CPreventDefault
| CFetch (rq : Request)
| CAlert (msg : jsstring)
| CGetUserMedia
| CNewRecorder (s : MediaStream)
| CRecorderStart
| CRecorderStop.

Record World := mkWorld {
  conversationsUl : list Li;       (* children of #conversations *)
  messagesDiv : list Bubble;       (* children of #messages *)
  scrollTop : N;                   (* messagesDiv.scrollTop *)
  textInput_value : jsstring;      (* textInput.value *)
  convIdInput_value : jsstring;    (* convIdInput.value *)
  useRagCb_checked : bool;         (* useRagCb.checked *)
  micBtn_textContent : jsstring;   (* micBtn.textContent *)
  mediaDevices : bool;             (* navigator.mediaDevices is there *)
  mediaRecorder : option MediaRecorder;  (* let mediaRecorder *)
  chunks : list Blob;              (* let chunks *)
  recording : bool;                (* let recording *)
  queue : list RecEvent;           (* recorder events not yet delivered *)
  trace : list Call                (* platform calls made so far *)
}.

(** Assignments to one field of the page. *)

Definition set_conversationsUl (v : list Li) (w : World) : World :=
  mkWorld v (messagesDiv w) (scrollTop w) (textInput_value w)
    (convIdInput_value w) (useRagCb_checked w) (micBtn_textContent w)
    (mediaDevices w) (mediaRecorder w) (chunks w) (recording w) (queue w)
    (trace w).

Definition set_messagesDiv (v : list Bubble) (w : World) : World :=
  mkWorld (conversationsUl w) v (scrollTop w) (textInput_value w)
    (convIdInput_value w) (useRagCb_checked w) (micBtn_textContent w)
    (mediaDevices w) (mediaRecorder w) (chunks w) (recording w) (queue w)
    (trace w).

Definition set_scrollTop (v : N) (w : World) : World :=
  mkWorld (conversationsUl w) (messagesDiv w) v (textInput_value w)
    (convIdInput_value w) (useRagCb_checked w) (micBtn_textContent w)
    (mediaDevices w) (mediaRecorder w) (chunks w) (recording w) (queue w)
    (trace w).

Definition set_textInput_value (v : jsstring) (w : World) : World :=
  mkWorld (conversationsUl w) (messagesDiv w) (scrollTop w) v
    (convIdInput_value w) (useRagCb_checked w) (micBtn_textContent w)
    (mediaDevices w) (mediaRecorder w) (chunks w) (recording w) (queue w)
    (trace w).

Definition set_convIdInput_value (v : jsstring) (w : World) : World :=
  mkWorld (conversationsUl w) (messagesDiv w) (scrollTop w) (textInput_value
    w) v (useRagCb_checked w) (micBtn_textContent w) (mediaDevices w)
    (mediaRecorder w) (chunks w) (recording w) (queue w) (trace w).

Definition set_micBtn_textContent (v : jsstring) (w : World) : World :=
  mkWorld (conversationsUl w) (messagesDiv w) (scrollTop w) (textInput_value
    w) (convIdInput_value w) (useRagCb_checked w) v (mediaDevices w)
    (mediaRecorder w) (chunks w) (recording w) (queue w) (trace w).

Definition set_mediaRecorder (v : option MediaRecorder) (w : World) : World :=
  mkWorld (conversationsUl w) (messagesDiv w) (scrollTop w) (textInput_value
    w) (convIdInput_value w) (useRagCb_checked w) (micBtn_textContent w)
    (mediaDevices w) v (chunks w) (recording w) (queue w) (trace w).

Definition set_chunks (v : list Blob) (w : World) : World :=
  mkWorld (conversationsUl w) (messagesDiv w) (scrollTop w) (textInput_value
    w) (convIdInput_value w) (useRagCb_checked w) (micBtn_textContent w)
    (mediaDevices w) (mediaRecorder w) v (recording w) (queue w) (trace w).

Definition set_recording (v : bool) (w : World) : World :=
  mkWorld (conversationsUl w) (messagesDiv w) (scrollTop w) (textInput_value
    w) (convIdInput_value w) (useRagCb_checked w) (micBtn_textContent w)
    (mediaDevices w) (mediaRecorder w) (chunks w) v (queue w) (trace w).

Definition set_queue (v : list RecEvent) (w : World) : World :=
  mkWorld (conversationsUl w) (messagesDiv w) (scrollTop w) (textInput_value
    w) (convIdInput_value w) (useRagCb_checked w) (micBtn_textContent w)
    (mediaDevices w) (mediaRecorder w) (chunks w) (recording w) v (trace w).

Definition set_trace (v : list Call) (w : World) : World :=
  mkWorld (conversationsUl w) (messagesDiv w) (scrollTop w) (textInput_value
    w) (convIdInput_value w) (useRagCb_checked w) (micBtn_textContent w)
    (mediaDevices w) (mediaRecorder w) (chunks w) (recording w) (queue w) v.

Definition log (c : Call) (w : World) : World := set_trace (trace w ++ [c]) w.

(** *** What the platform supplies and the script only calls *)

Class Platform := mkPlatform {
  (** [new Date(s).toLocaleString()] *)
  toLocaleString : jsstring -> jsstring;
  (** the layout height of the transcript with the given bubbles *)
  scrollHeight : list Bubble -> N;
  clientHeight : N
}.

(** *** Asynchronous functions *)

Inductive Schema := SConversations | SHistory | SChat | SSay.

Definition data (T : Schema) : Type :=
  match T with
  | SConversations => list Conversation
  | SHistory => list Message
  | SChat => ChatData
  | SSay => SayData
  end.

(** The promises the script awaits, with the type of what they resolve to. *)
Inductive Eff : Type -> Type :=
| Fetch (rq : Request) : Eff Response
| ResJson (T : Schema) (res : Response) : Eff (data T)
| GetUserMedia : Eff MediaStream.

(** A call of an async function has finished, or is suspended at an
    [await] with the rest of its body. *)
Inductive Async :=
| Done
| Await {X : Type} (e : Eff X) (k : X -> World -> World * Async).

Definition Proc := World -> World * Async.

(** [await p; rest] where [p] is the promise of an async call. *)
Fixpoint andThen (a : Async) (rest : Proc) (w : World) : World * Async :=
  match a with
  | Done => rest w
  | Await e k =>
      (w, Await e (fun x w1 => let (w2, a') := k x w1 in andThen a' rest w2))
  end.

Definition seq (p rest : Proc) : Proc :=
  fun w => let (w1, a) := p w in andThen a rest w1.

(** [const res = await fetch(...)]: the call is made, the function is
    suspended until the response arrives. *)
Definition await_fetch (rq : Request) (k : Response -> Proc) : Proc :=
  fun w => (log (CFetch rq) w, Await (Fetch rq) k).

(** [const data = await res.json()] *)
Definition await_json (T : Schema) (res : Response) (k : data T -> Proc) : Proc :=
  fun w => (w, Await (ResJson T res) k).

Definition GET (u : jsstring) : Request := mkRequest u (lit "GET") [] NoBody.

(** [v || d] on an optional string. *)
Definition or_else (v : option jsstring) (d : jsstring) : jsstring :=
  match v with
  | Some s => if truthy s then s else d
  | None => d
  end.

Definition dquote : jsstring := [34].
Definition em_dash : jsstring := [8212].
Definition speaker_glyph : jsstring := [55357; 56586].
Definition record_glyph : jsstring := [9210; 65039].
Definition mic_glyph : jsstring := [55356; 57252].

Section Script.

Context {platform : Platform}.

(** [messagesDiv.scrollTop = v]: the platform clamps to the scrollable
    range. *)
Definition assign_scrollTop (v : N) (w : World) : World :=
  set_scrollTop (N.min v (scrollHeight (messagesDiv w) - clientHeight)) w.

Definition scroll_to_end (w : World) : World :=
  assign_scrollTop (scrollHeight (messagesDiv w)) w.

(** The element [addMessage] builds before it appends it. *)
Definition make_bubble (role : jsstring) (text audioUrl : option jsstring) : Bubble :=
  let b := mkBubble (lit "msg " ++ role) (or_else text []) [] in
  match audioUrl with
  | Some u =>
      if truthy u then
        let a :=
          Div (lit "audio-bubble")
              (speaker_glyph ++ lit " <a href=" ++ dquote ++ u ++ dquote
               ++ lit " target=" ++ dquote ++ lit "_blank" ++ dquote
               ++ lit ">audio</a>") in
        mkBubble (b_className b) (b_textContent b) (b_children b ++ [Br; a])
      else b
  | None => b
  end.

(** [addMessage(role, text, audioUrl)] *)
Definition addMessage (role : jsstring) (text audioUrl : option jsstring)
    (w : World) : World :=
  set_messagesDiv (messagesDiv w ++ [make_bubble role text audioUrl]) w.

(** [loadHistory(conversationId)] *)
Definition loadHistory (conversationId : jsnum) : Proc :=
  await_fetch (GET (lit "/api/history/" ++ toString conversationId)) (fun res =>
  await_json SHistory res (fun data w =>
    let w := set_messagesDiv [] w in
    let w :=
      fold_left
        (fun w m => addMessage (role m) (content m) (audio_path m) w) data w in
    (scroll_to_end w, Done))).

(** The list entry built for one conversation. *)
Definition conversation_li (c : Conversation) : Li :=
  mkLi (title c ++ lit " " ++ em_dash ++ lit " " ++ toLocaleString (created_at c))
       (lit "pointer")
       (Some (ClSelect c)).

(** [fetchConversations()] *)
Definition fetchConversations : Proc :=
  await_fetch (GET (lit "/api/conversations")) (fun res =>
  await_json SConversations res (fun data w =>
    let w := set_conversationsUl [] w in
    let w :=
      fold_left
        (fun w c => set_conversationsUl (conversationsUl w ++ [conversation_li c]) w)
        data w in
    (w, Done))).

(** The body of [li.onclick], closed over [c]. *)
Definition li_onclick_body (c : Conversation) : Proc :=
  fun w =>
    let w := set_convIdInput_value (toString (Int (id c))) w in
    loadHistory (Int (id c)) w.

(** The chat form's submit listener. *)
Definition chatForm_submit : Proc :=
  fun w =>
    let w := log CPreventDefault w in
    let text := trim (or_else (Some (textInput_value w)) []) in
    if negb (truthy text) then (w, Done) else
    let w := addMessage (lit "user") (Some text) None w in
    let conversation_id := parseInt10 (convIdInput_value w) in
    let w := set_textInput_value [] w in
    await_fetch
      (mkRequest (lit "/api/chat") (lit "POST")
         [(lit "Content-Type", lit "application/json")]
         (TextBody
            (Json.stringify
               [(lit "conversation_id", Json.VNum conversation_id);
                (lit "text", Json.VStr text);
                (lit "use_rag", Json.VBool (useRagCb_checked w))])))
      (fun res =>
       await_json SChat res (fun data w =>
         let w :=
           addMessage (lit "assistant")
             (Some (or_else (chat_reply data) (lit "(no reply)"))) None w in
         (scroll_to_end w, Done)))
      w.

(** [mediaRecorder.onstop] as installed by the mousedown listener. *)
Definition recorder_onstop : Proc :=
  fun w =>
    let blob := new_Blob (chunks w) (lit "audio/webm") in
    let fd :=
      [(lit "audio", FFile blob (lit "speech.webm"));
       (lit "conversation_id",
        FString (toString (parseInt10 (convIdInput_value w))));
       (lit "use_rag",
        FString (if useRagCb_checked w then lit "true" else lit "false"))] in
    await_fetch (mkRequest (lit "/api/say") (lit "POST") [] (FormBody fd))
      (fun res =>
       await_json SSay res (fun data w =>
         let w :=
           addMessage (lit "user")
             (Some (or_else (transcript data) (lit "(no speech)")))
             (audio_url data) w in
         let w :=
           addMessage (lit "assistant")
             (Some (or_else (reply data) (lit "(no reply)"))) None w in
         (scroll_to_end w, Done)))
      w.

(** [mediaRecorder.ondataavailable] *)
Definition recorder_ondataavailable (e_data : Blob) (w : World) : World :=
  set_chunks (chunks w ++ [e_data]) w.

(** An assignment or method call on the object [mediaRecorder] refers to. *)
Definition on_recorder (f : MediaRecorder -> MediaRecorder) (w : World) : World :=
  set_mediaRecorder (option_map f (mediaRecorder w)) w.

Definition set_state (v : RecState) (r : MediaRecorder) : MediaRecorder :=
  mkRecorder v (stream r) (ondataavailable r) (onstop r).

Definition set_ondataavailable (v : Closure) (r : MediaRecorder) : MediaRecorder :=
  mkRecorder (state r) (stream r) (Some v) (onstop r).

Definition set_onstop (v : Closure) (r : MediaRecorder) : MediaRecorder :=
  mkRecorder (state r) (stream r) (ondataavailable r) (Some v).

(** [new MediaRecorder(s)]: a recorder is created inactive. *)
Definition new_MediaRecorder (s : MediaStream) : MediaRecorder :=
  mkRecorder Inactive s None None.

(** [mediaRecorder.start()] *)
Definition recorder_start (w : World) : World :=
  on_recorder (set_state Recording) (log CRecorderStart w).

(** [mediaRecorder.stop()]: the recorder becomes inactive at once and the
    platform queues its last dataavailable event and the stop event. *)
Definition recorder_stop (w : World) : World :=
  let w := on_recorder (set_state Inactive) (log CRecorderStop w) in
  set_queue (queue w ++ [EvDataAvailable; EvStop]) w.

(** The microphone button's mousedown listener. *)
Definition micBtn_mousedown : Proc :=
  fun w =>
    if negb (mediaDevices w)
    then (log (CAlert (lit "No media devices API")) w, Done)
    else
      (log CGetUserMedia w,
       Await GetUserMedia (fun s w =>
         let w := set_mediaRecorder (Some (new_MediaRecorder s))
                    (log (CNewRecorder s) w) in
         let w := set_chunks [] w in
         let w := on_recorder (set_ondataavailable ClPushChunk) w in
         let w := on_recorder (set_onstop ClUpload) w in
         let w := recorder_start w in
         let w := set_recording true w in
         let w := set_micBtn_textContent (record_glyph ++ lit " Recording...") w in
         (w, Done))).

(** The listener registered for both mouseup and mouseleave. *)
Definition micBtn_release (w : World) : World :=
  if recording w then
    match mediaRecorder w with
    | Some r =>
        if negb (is_inactive (state r)) then
          let w := recorder_stop w in
          let w := set_recording false w in
          set_micBtn_textContent mic_glyph w
        else w
    | None => w
    end
  else w.

(** The script's last statement, run once when it is loaded. *)
Definition init : Proc :=
  seq fetchConversations
      (fun w => loadHistory (parseInt10 (convIdInput_value w)) w).

(** *** The page's events *)

Inductive Event :=
| Load                        (* the script is evaluated *)
| FormSubmit
| MouseDown
| MouseUp
| MouseLeave
| LiClick (i : nat)           (* a click on the i-th list entry *)
| RecorderTask (gathered : Blob).
                              (* the platform delivers the recorder's next
                                 queued event; [gathered] is what it
                                 recorded since the last delivery *)

(** Calling a stored function value with an event argument. *)
Definition call_closure (cl : Closure) (e_data : Blob) : Proc :=
  match cl with
  | ClSelect c => li_onclick_body c
  | ClPushChunk => fun w => (recorder_ondataavailable e_data w, Done)
  | ClUpload => recorder_onstop
  end.

Definition fire (h : option Closure) (e_data : Blob) : Proc :=
  match h with
  | Some cl => call_closure cl e_data
  | None => fun w => (w, Done)
  end.

Definition recorder_handler (sel : MediaRecorder -> option Closure) (w : World)
  : option Closure :=
  match mediaRecorder w with
  | Some r => sel r
  | None => None
  end.

(** The listener the page runs for an event, up to its first [await]. *)
Definition dispatch (ev : Event) : Proc :=
  match ev with
  | Load => init
  | FormSubmit => chatForm_submit
  | MouseDown => micBtn_mousedown
  | MouseUp | MouseLeave => fun w => (micBtn_release w, Done)
  | LiClick i =>
      fun w =>
        match nth_error (conversationsUl w) i with
        | Some li => fire (li_onclick li) (mkBlob [] []) w
        | None => (w, Done)
        end
  | RecorderTask gathered =>
      fun w =>
        match queue w with
        | EvDataAvailable :: q =>
            fire (recorder_handler ondataavailable w) gathered (set_queue q w)
        | EvStop :: q =>
            fire (recorder_handler onstop w) gathered (set_queue q w)
        | [] => (w, Done)
        end
  end.

(** *** Running a listener to its end

    The environment settles each awaited promise: [Some x] fulfils it with
    [x], [None] rejects it, and a rejection ends the call (the script has
    no catch). *)

Definition Env := World -> forall X : Type, Eff X -> option X.

Inductive Outcome := Fulfilled | Rejected.

Fixpoint run_async (env : Env) (a : Async) (w : World) : World * Outcome :=
  match a with
  | Done => (w, Fulfilled)
  | Await e k =>
      match env w _ e with
      | Some x => let (w1, a') := k x w in run_async env a' w1
      | None => (w, Rejected)
      end
  end.

Definition run (env : Env) (p : Proc) (w : World) : World * Outcome :=
  let (w1, a) := p w in run_async env a w1.

(** Events handled one after the other, each to its end. *)
Fixpoint run_events (env : Env) (evs : list Event) (w : World) : World :=
  match evs with
  | [] => w
  | ev :: r => run_events env r (fst (run env (dispatch ev) w))
  end.

(** *** The event loop, with interleaving

    A configuration is the page and the calls suspended at an [await].
    One turn of the loop either runs a listener to its first [await], or
    settles the promise one suspended call waits for and runs that call to
    its next [await]. *)

Definition Config := (World * list Async)%type.

Definition suspend (a : Async) (ps : list Async) : list Async :=
  match a with
  | Done => ps
  | Await _ _ => ps ++ [a]
  end.

Inductive Turn :=
| TEvent (ev : Event)
| TSettle.

Inductive step : Config -> Turn -> Config -> Prop :=
| step_event ev w ps w1 a :
    dispatch ev w = (w1, a) ->
    step (w, ps) (TEvent ev) (w1, suspend a ps)
| step_fulfil X (e : Eff X) k x w ps1 ps2 w1 a :
    k x w = (w1, a) ->
    step (w, ps1 ++ Await e k :: ps2) TSettle (w1, suspend a (ps1 ++ ps2))
| step_reject X (e : Eff X) k w ps1 ps2 :
    step (w, ps1 ++ Await e k :: ps2) TSettle (w, ps1 ++ ps2).

(** Executions from a configuration, as the list of turns taken, each with
    the configuration it started from and the one it ended in. *)
Inductive exec : Config -> list (Config * Turn * Config) -> Config -> Prop :=
| exec_nil c : exec c [] c
| exec_cons c t c1 l c2 :
    step c t c1 -> exec c1 l c2 -> exec c ((c, t, c1) :: l) c2.

(** How often the script has called [mediaRecorder.stop()] and how often
    it has posted to the speech endpoint. *)
Definition is_stop (c : Call) : bool :=
  match c with CRecorderStop => true | _ => false end.

Definition is_upload (c : Call) : bool :=
  match c with
  | CFetch rq => JsString.eqb (url rq) (lit "/api/say")
  | _ => false
  end.

Definition is_fetch (c : Call) : bool :=
  match c with CFetch _ => true | _ => false end.

Definition stops (w : World) : nat := List.length (filter is_stop (trace w)).
Definition uploads (w : World) : nat := List.length (filter is_upload (trace w)).
Definition fetches (w : World) : list Call := filter is_fetch (trace w).

(** A suspended call none of whose remaining segments calls
    [mediaRecorder.stop()], however its promises are settled. *)
Inductive no_stop : Async -> Prop :=
| no_stop_done : no_stop Done
| no_stop_await X (e : Eff X) k :
    (forall x w, stops (fst (k x w)) = stops w) ->
    (forall x w, no_stop (snd (k x w))) ->
    no_stop (Await e k).

Definition quiet (p : Proc) : Prop :=
  forall w, stops (fst (p w)) = stops w /\ no_stop (snd (p w)).

(** An empty page before the script has run. *)
Definition blank : World :=
  mkWorld [] [] 0 [] [] false mic_glyph true None [] false [] [].

End Script.

End Chat.

Import Chat.

(** The text the specification's sentences give for an optional field:
    the field when it is there, the placeholder when it is absent. *)
Definition field_or_placeholder (v : option jsstring) (placeholder : jsstring)
  : jsstring :=
  match v with
  | Some s => s
  | None => placeholder
  end.

(** ** Concrete pages and environments used in the examples below *)

Module Fixtures.

Definition test_platform : Platform :=
  mkPlatform (fun s => lit "[" ++ s ++ lit "]")
             (fun bs => 40 * N.of_nat (List.length bs))
             100.

(** An environment in which every promise is fulfilled. *)
Definition env_ok (s : MediaStream) (res : Response)
    (convs : list Conversation) (hist : list Message)
    (chat : ChatData) (say : SayData) : Env :=
  fun _ X e =>
    match e in Eff X return option X with
    | Fetch _ => Some res
    | ResJson T _ =>
        Some (match T return data T with
              | SConversations => convs
              | SHistory => hist
              | SChat => chat
              | SSay => say
              end)
    | GetUserMedia => Some s
    end.

Definition page (text convId : string) : World :=
  set_textInput_value (lit text) (set_convIdInput_value (lit convId) blank).

Definition a_stream : MediaStream := mkMediaStream 1.
Definition a_response : Response := mkResponse (lit "/api").

(** A page on a platform without [navigator.mediaDevices]. *)
Definition page_without_media : World :=
  mkWorld [] [] 0 [] (lit "7") false mic_glyph false None [] false [] [].

Definition a_conversation : Conversation :=
  mkConversation 12 (lit "Trip") (lit "2024-05-01T10:00:00").


(** The server answers with an empty reply and an empty transcript. *)
Definition env_empty_fields : Env :=
  env_ok a_stream a_response [] []
    (mkChatData (Some []))
    (mkSayData (Some []) (Some (lit "/a.webm")) (Some (lit "ok"))).


End Fixtures.

(** ** Further environments and pages for the examples *)

Module Scenarios.

(** Nothing is ever granted or answered. *)
Definition env_reject : Env := fun _ _ _ => None.

(** Responses arrive, but their bodies do not parse. *)
Definition env_bad_json : Env :=
  fun _ X e =>
    match e in Eff X return option X with
    | Fetch _ => Some Fixtures.a_response
    | ResJson _ _ => None
    | GetUserMedia => Some Fixtures.a_stream
    end.

(** Everything is granted and answered: one conversation, one message, a
    reply and a transcript. *)
Definition env_full : Env :=
  Fixtures.env_ok Fixtures.a_stream Fixtures.a_response
    [Fixtures.a_conversation]
    [mkMessage (lit "user") (Some (lit "hello")) None]
    (mkChatData (Some (lit "hi there")))
    (mkSayData (Some (lit "hello")) (Some (lit "/a.webm")) (Some (lit "hi"))).


(** The page after a press with the microphone granted, and then after
    the first segment of the initializer. *)
Definition recording_page : World :=
  fst (run env_full micBtn_mousedown (Fixtures.page "hi" "7")).

Definition sample_world : World :=
  fst (dispatch (platform := Fixtures.test_platform) Load recording_page).

End Scenarios.
Import Scenarios.

(** ** Names for what the properties below speak of *)

Definition conversations_request : Request := GET (lit "/api/conversations").

Definition history_request (n : jsnum) : Request :=
  GET (lit "/api/history/" ++ toString n).

(** The bubble [loadHistory] renders for one message. *)
Definition bubble_of (m : Message) : Bubble :=
  make_bubble (role m) (content m) (audio_path m).

(** ** What holds of the page in every execution *)

(** A list entry carries no listener or the one [fetchConversations]
    installs. *)
Definition li_ok (li : Li) : Prop :=
  match li_onclick li with
  | None | Some (ClSelect _) => True
  | Some _ => False
  end.

(** The recorder in [mediaRecorder], when there is one, has the two
    handlers the mousedown listener installs. *)
Definition handlers_ok (w : World) : Prop :=
  match mediaRecorder w with
  | Some r => ondataavailable r = Some ClPushChunk /\ onstop r = Some ClUpload
  | None => True
  end.

(** The four requests the script is written to make. *)
Definition api_request (rq : Request) : Prop :=
  rq = GET (lit "/api/conversations")
  \/ (exists n, rq = GET (lit "/api/history/" ++ toString n))
  \/ (url rq = lit "/api/chat" /\ method rq = lit "POST")
  \/ (url rq = lit "/api/say" /\ method rq = lit "POST").

Definition api_call (c : Call) : Prop :=
  match c with
  | CFetch rq => api_request rq
  | _ => True
  end.

Definition is_EvStop (e : RecEvent) : bool :=
  match e with EvStop => true | EvDataAvailable => false end.

(** Stop events queued on the recorder and not yet delivered. *)
Definition queued_stops (w : World) : nat :=
  List.length (filter is_EvStop (queue w)).

Record Sound (w : World) : Prop := mkSound {
  sound_list : Forall li_ok (conversationsUl w);
  sound_handlers : handlers_ok w;
  sound_calls : Forall api_call (trace w);
  sound_uploads : (uploads w + queued_stops w <= stops w)%nat;
  sound_flag :
    recording w = true ->
    mediaRecorder w <> None /\
    micBtn_textContent w = record_glyph ++ lit " Recording..."
}.

(** A suspended call each of whose remaining segments takes sound pages
    to sound pages. *)
Inductive keeps_sound : Async -> Prop :=
| keeps_done : keeps_sound Done
| keeps_await X (e : Eff X) k :
    (forall x w, Sound w -> Sound (fst (k x w))) ->
    (forall x w, keeps_sound (snd (k x w))) ->
    keeps_sound (Await e k).

Definition sound_proc (p : Proc) : Prop :=
  forall w, (Sound w -> Sound (fst (p w))) /\ keeps_sound (snd (p w)).

(** The page as the markup gives it, before the script has run: list
    entries without listeners, no recorder, nothing recorded or called. *)
Definition fresh (w : World) : Prop :=
  Forall (fun li => li_onclick li = None) (conversationsUl w) /\
  mediaRecorder w = None /\
  recording w = false /\
  queue w = [] /\
  trace w = [].

Import Fixtures.

(** * Properties *)

(** ** Strings *)

Lemma trimStart_nil (s : jsstring) :
  trimStart s = [] <-> forallb is_ws s = true.
Proof.
  induction s as [|c r IH]; simpl.
  - tauto.
  - destruct (is_ws c); simpl.
    + exact IH.
    + split; discriminate.
Qed.

Lemma forallb_rev {A} (f : A -> bool) (l : list A) :
  forallb f (rev l) = forallb f l.
Proof.
  induction l as [|a l IH]; simpl; trivial.
  rewrite forallb_app, IH. simpl. rewrite andb_true_r. apply andb_comm.
Qed.

Lemma trimStart_head (s : jsstring) :
  match trimStart s with
  | c :: _ => is_ws c = false
  | [] => True
  end.
Proof.
  induction s as [|c r IH]; simpl; trivial.
  destruct (is_ws c) eqn:E; trivial.
Qed.

(** A string trims to the empty string exactly when it is empty or all
    white space. *)
Lemma trim_nil (s : jsstring) :
  trim s = [] <-> forallb is_ws s = true.
Proof.
  unfold trim, trimEnd. split.
  - intros H.
    assert (H1 : trimStart (rev (trimStart s)) = []).
    { destruct (trimStart (rev (trimStart s))); trivial.
      apply (f_equal (@List.length N)) in H. rewrite length_rev in H.
      discriminate. }
    apply trimStart_nil in H1. rewrite forallb_rev in H1.
    apply trimStart_nil.
    pose proof (trimStart_head s) as Hh.
    destruct (trimStart s) as [|c r]; trivial.
    simpl in H1. rewrite Hh in H1. discriminate.
  - intros H. apply trimStart_nil in H. rewrite H. reflexivity.
Qed.

Lemma or_else_nil (s : jsstring) : or_else (Some s) [] = s.
Proof. destruct s; reflexivity. Qed.

(** [v || d] is [v] when it is a non-empty string and [d] otherwise. *)
Lemma or_else_cases (v : option jsstring) (d : jsstring) :
  or_else v d = match v with Some (c :: r) => c :: r | _ => d end.
Proof. destruct v as [[|c r]|]; reflexivity. Qed.

(** ** Numbers *)










Section Properties.

Context {platform : Platform}.

(** ** Rendering *)

Lemma messagesDiv_addMessage role text audioUrl (w : World) :
  messagesDiv (addMessage role text audioUrl w) =
  messagesDiv w ++ [make_bubble role text audioUrl].
Proof. reflexivity. Qed.

Lemma messagesDiv_scroll_to_end (w : World) :
  messagesDiv (scroll_to_end w) = messagesDiv w.
Proof. reflexivity. Qed.

Lemma make_bubble_plain role (t : jsstring) :
  make_bubble role (Some t) None = mkBubble (lit "msg " ++ role) t [].
Proof. unfold make_bubble. rewrite or_else_nil. reflexivity. Qed.

(** ** The chat form *)

Lemma submit_blank (w : World) :
  trim (textInput_value w) = [] ->
  chatForm_submit w = (log CPreventDefault w, Done).
Proof.
  intros H. unfold chatForm_submit. cbn [log set_trace textInput_value].
  rewrite or_else_nil, H. reflexivity.
Qed.

(** What the submit listener has done when it suspends at the fetch. *)
Lemma submit_send (w : World) :
  trim (textInput_value w) <> [] ->
  exists rq k,
    chatForm_submit w =
      (log (CFetch rq)
         (set_textInput_value []
            (addMessage (lit "user") (Some (trim (textInput_value w))) None
               (log CPreventDefault w))),
       Await (Fetch rq) k) /\
    rq = mkRequest (lit "/api/chat") (lit "POST")
           [(lit "Content-Type", lit "application/json")]
           (TextBody
              (Json.stringify
                 [(lit "conversation_id",
                   Json.VNum (parseInt10 (convIdInput_value w)));
                  (lit "text", Json.VStr (trim (textInput_value w)));
                  (lit "use_rag", Json.VBool (useRagCb_checked w))])) /\
    forall res wa, exists k2,
      k res wa = (wa, Await (ResJson SChat res) k2) /\
      forall data wb,
        k2 data wb =
          (scroll_to_end
             (addMessage (lit "assistant")
                (Some (or_else (chat_reply data) (lit "(no reply)"))) None wb),
           Done).
Proof.
  intros H. unfold chatForm_submit. cbn [log set_trace textInput_value].
  rewrite or_else_nil.
  destruct (trim (textInput_value w)) as [|c r] eqn:E; [congruence|].
  cbn [truthy negb]. unfold await_fetch.
  eexists _, _. split; [reflexivity|]. split; [reflexivity|].
  intros res wa. unfold await_json. eexists. split; [reflexivity|].
  intros data wb. reflexivity.
Qed.

(** C3: submitting the chat form with empty or white-space-only text
    appends no bubble and issues no request; the listener just returns,
    and its promise is fulfilled, not rejected. *)
Theorem blank_submit_is_noop (w : World) :
  forallb is_ws (textInput_value w) = true ->
  exists w1,
    chatForm_submit w = (w1, Done) /\
    messagesDiv w1 = messagesDiv w /\
    trace w1 = trace w ++ [CPreventDefault] /\
    fetches w1 = fetches w /\
    forall env, run env chatForm_submit w = (w1, Fulfilled).
Proof.
  intros H. apply trim_nil in H. exists (log CPreventDefault w).
  pose proof (submit_blank w H) as E.
  split; [exact E|]. split; [reflexivity|]. split; [reflexivity|]. split.
  - unfold fetches. cbn [log set_trace trace]. rewrite filter_app. simpl.
    apply app_nil_r.
  - intros env. unfold run. rewrite E. reflexivity.
Qed.

(** C10: submitting the chat form with empty or white-space-only text
    leaves the content of the text input as it was. *)
Theorem blank_submit_keeps_input (w : World) :
  forallb is_ws (textInput_value w) = true ->
  textInput_value (fst (chatForm_submit w)) = textInput_value w.
Proof.
  intros H. apply trim_nil in H. rewrite (submit_blank w H). reflexivity.
Qed.

(** C1 (amended): for input text that is non-empty after trimming, the
    submit listener first appends a user bubble with exactly the trimmed
    text and suspends at the request; once the response and its JSON have
    arrived it appends an assistant bubble whose text is the reply when
    that is a non-empty string, and "(no reply)" when the reply is absent
    or the empty string. *)
Theorem chat_submit_renders_reply (w : World) :
  trim (textInput_value w) <> [] ->
  exists w1 rq k,
    chatForm_submit w = (w1, Await (Fetch rq) k) /\
    messagesDiv w1 =
      messagesDiv w ++ [mkBubble (lit "msg user") (trim (textInput_value w)) []] /\
    forall res wa, exists k2,
      k res wa = (wa, Await (ResJson SChat res) k2) /\
      forall data wb, exists wc,
        k2 data wb = (wc, Done) /\
        messagesDiv wc =
          messagesDiv wb ++
          [mkBubble (lit "msg assistant")
             (match chat_reply data with
              | Some (c :: r) => c :: r
              | _ => lit "(no reply)"
              end) []].
Proof.
  intros H. destruct (submit_send w H) as (rq & k & E & _ & K).
  eexists _, rq, k. split; [exact E|]. split.
  - cbn [log set_trace set_textInput_value messagesDiv].
    rewrite messagesDiv_addMessage, make_bubble_plain. reflexivity.
  - intros res wa. destruct (K res wa) as (k2 & E2 & K2).
    exists k2. split; [exact E2|]. intros data wb. eexists.
    split; [apply K2|].
    rewrite messagesDiv_scroll_to_end, messagesDiv_addMessage.
    rewrite make_bubble_plain, or_else_cases. reflexivity.
Qed.

(** C8: when the submit listener is run for text that is non-empty after
    trimming, the turn ends with the call suspended at the fetch to the
    chat endpoint and the text input already empty; the response can only be
    delivered in a later turn. *)
Theorem input_cleared_before_response (w : World) (ps : list Async) (c1 : Config) :
  trim (textInput_value w) <> [] ->
  step (w, ps) (TEvent FormSubmit) c1 ->
  textInput_value (fst c1) = [] /\
  exists rq k,
    snd c1 = ps ++ [Await (Fetch rq) k] /\
    url rq = lit "/api/chat" /\
    trace (fst c1) = trace w ++ [CPreventDefault; CFetch rq].
Proof.
  intros H St. inversion St as [ev w0 ps0 w1 a D| |]; subst.
  cbn [dispatch] in D.
  destruct (submit_send w H) as (rq & k & E & Hrq & _).
  rewrite E in D. inversion D; subst w1 a. clear D.
  split; [reflexivity|]. exists rq, k. split; [reflexivity|]. split.
  - rewrite Hrq. reflexivity.
  - cbn [fst log set_trace trace set_textInput_value addMessage set_messagesDiv].
    rewrite <- app_assoc. reflexivity.
Qed.

(** C9: when the conversation-id field does not parse as an integer, a
    submission with non-empty text is still sent: the listener posts to the
    chat endpoint, and the JSON body carries conversation_id as null. *)
Theorem unparsable_id_sent_as_null (w : World) :
  trim (textInput_value w) <> [] ->
  parseInt10 (convIdInput_value w) = NaN ->
  exists w1 rq k,
    chatForm_submit w = (w1, Await (Fetch rq) k) /\
    trace w1 = trace w ++ [CPreventDefault; CFetch rq] /\
    url rq = lit "/api/chat" /\
    body rq =
      TextBody
        (lit "{" ++ dquote ++ lit "conversation_id" ++ dquote ++ lit ":null,"
         ++ dquote ++ lit "text" ++ dquote ++ lit ":"
         ++ Json.quote (trim (textInput_value w)) ++ lit ","
         ++ dquote ++ lit "use_rag" ++ dquote ++ lit ":"
         ++ (if useRagCb_checked w then lit "true" else lit "false")
         ++ lit "}").
Proof.
  intros H Hn. destruct (submit_send w H) as (rq & k & E & Hrq & _).
  eexists _, rq, k. split; [exact E|]. split; [|split].
  - cbn [log set_trace trace set_textInput_value addMessage set_messagesDiv].
    rewrite <- app_assoc. reflexivity.
  - rewrite Hrq. reflexivity.
  - rewrite Hrq, Hn. cbn [body]. f_equal.
    unfold Json.stringify, Json.stringify_fields, Json.stringify_val.
    generalize (Json.quote (trim (textInput_value w))) as q. intros q.
    destruct (useRagCb_checked w); simpl; rewrite <- app_assoc; reflexivity.
Qed.

(** ** The conversation list and the history *)

Lemma render_conversations (data : list Conversation) (w : World) :
  conversationsUl
    (fold_left
       (fun w c => set_conversationsUl (conversationsUl w ++ [conversation_li c]) w)
       data w)
  = conversationsUl w ++ map conversation_li data.
Proof.
  revert w. induction data as [|c data IH]; intros w; simpl.
  - symmetry. apply app_nil_r.
  - rewrite IH. cbn [set_conversationsUl conversationsUl].
    rewrite <- app_assoc. reflexivity.
Qed.

Lemma render_messages (data : list Message) (w : World) :
  let w' :=
    fold_left (fun w m => addMessage (role m) (content m) (audio_path m) w)
      data w in
  messagesDiv w' =
    messagesDiv w
    ++ map (fun m => make_bubble (role m) (content m) (audio_path m)) data
  /\ trace w' = trace w.
Proof.
  revert w. induction data as [|m data IH]; intros w; simpl.
  - split; [symmetry; apply app_nil_r | reflexivity].
  - destruct (IH (addMessage (role m) (content m) (audio_path m) w)) as [A B].
    split.
    + rewrite A, messagesDiv_addMessage, <- app_assoc. reflexivity.
    + rewrite B. reflexivity.
Qed.

Lemma scrollTop_scroll_to_end (w : World) :
  scrollTop (scroll_to_end w) = scrollHeight (messagesDiv w) - clientHeight.
Proof.
  unfold scroll_to_end, assign_scrollTop. cbn [set_scrollTop scrollTop].
  apply N.min_r, N.le_sub_l.
Qed.

Lemma make_bubble_text role text audioUrl :
  b_textContent (make_bubble role text audioUrl) =
  match text with Some t => t | None => [] end.
Proof.
  unfold make_bubble.
  assert (E : or_else text [] = match text with Some t => t | None => [] end).
  { destruct text as [t|]; [apply or_else_nil | reflexivity]. }
  rewrite E. destruct audioUrl as [u|]; [destruct (truthy u)|]; reflexivity.
Qed.

Lemma make_bubble_class role text audioUrl :
  b_className (make_bubble role text audioUrl) = lit "msg " ++ role.
Proof.
  unfold make_bubble.
  destruct audioUrl as [u|]; [destruct (truthy u)|]; reflexivity.
Qed.

(** What [loadHistory] does, segment by segment. *)
Lemma loadHistory_segments (n : jsnum) (w : World) :
  exists k,
    loadHistory n w =
      (log (CFetch (GET (lit "/api/history/" ++ toString n))) w,
       Await (Fetch (GET (lit "/api/history/" ++ toString n))) k) /\
    forall res wa, exists k2,
      k res wa = (wa, Await (ResJson SHistory res) k2) /\
      forall (data : list Message) wb, exists wc,
        k2 data wb = (wc, Done) /\
        trace wc = trace wb /\
        messagesDiv wc =
          map (fun m => make_bubble (role m) (content m) (audio_path m)) data /\
        scrollTop wc = scrollHeight (messagesDiv wc) - clientHeight.
Proof.
  unfold loadHistory, await_fetch. eexists. split; [reflexivity|].
  intros res wa. unfold await_json. eexists. split; [reflexivity|].
  intros data wb. eexists. split; [reflexivity|].
  destruct (render_messages data (set_messagesDiv [] wb)) as [A B].
  rewrite messagesDiv_scroll_to_end, scrollTop_scroll_to_end.
  split; [exact B|]. split; [exact A | reflexivity].
Qed.

(** C4: whatever sequence of conversations the endpoint returns, the list
    is cleared and then holds one entry per conversation, in the order of
    the response, each labelled with the title, " — " and the localized
    created_at. *)
Theorem conversations_rendered_in_order (w : World) :
  exists rq k,
    fetchConversations w = (log (CFetch rq) w, Await (Fetch rq) k) /\
    rq = GET (lit "/api/conversations") /\
    forall res wa, exists k2,
      k res wa = (wa, Await (ResJson SConversations res) k2) /\
      forall (data : list Conversation) wb, exists wc,
        k2 data wb = (wc, Done) /\
        List.length (conversationsUl wc) = List.length data /\
        map li_onclick (conversationsUl wc) =
          map (fun c => Some (ClSelect c)) data /\
        map li_textContent (conversationsUl wc) =
          map (fun c =>
                 title c ++ lit " " ++ em_dash ++ lit " "
                 ++ toLocaleString (created_at c)) data.
Proof.
  unfold fetchConversations, await_fetch. eexists _, _.
  split; [reflexivity|]. split; [reflexivity|].
  intros res wa. unfold await_json. eexists. split; [reflexivity|].
  intros data wb. eexists. split; [reflexivity|].
  rewrite render_conversations. cbn [set_conversationsUl conversationsUl app].
  rewrite length_map, !map_map. repeat split.
Qed.


(** ** The microphone button *)

(** C7: on a platform without media devices, pressing the microphone
    button raises the alert and does nothing else: no microphone is
    requested, no recorder is created, and the recorder variables, the
    recording flag and the button label are as before. *)
Theorem no_media_devices_alert (w : World) :
  mediaDevices w = false ->
  exists w1,
    micBtn_mousedown w = (w1, Done) /\
    trace w1 = trace w ++ [CAlert (lit "No media devices API")] /\
    recording w1 = recording w /\
    mediaRecorder w1 = mediaRecorder w /\
    chunks w1 = chunks w /\
    queue w1 = queue w /\
    micBtn_textContent w1 = micBtn_textContent w.
Proof.
  intros H. unfold micBtn_mousedown. rewrite H. cbn [negb].
  eexists. split; [reflexivity|]. repeat split.
Qed.

(** *** Where [mediaRecorder.stop()] can be called *)

Lemma stops_trace (w w' : World) : trace w' = trace w -> stops w' = stops w.
Proof. unfold stops. intros ->. reflexivity. Qed.

Lemma stops_log (c : Call) (w : World) :
  is_stop c = false -> stops (log c w) = stops w.
Proof.
  intros H. unfold stops. cbn [log set_trace trace].
  rewrite filter_app. simpl. rewrite H, app_nil_r. reflexivity.
Qed.

Lemma no_stop_inv (a : Async) :
  no_stop a ->
  match a with
  | Done => True
  | Await e k =>
      (forall x w, stops (fst (k x w)) = stops w) /\
      (forall x w, no_stop (snd (k x w)))
  end.
Proof. intros H. destruct H; auto. Qed.

Lemma quiet_andThen (a : Async) (rest : Proc) :
  no_stop a -> quiet rest -> quiet (andThen a rest).
Proof.
  intros Ha Hr. induction Ha as [|X e k Hs Hn IH]; intros w.
  - apply Hr.
  - cbn [andThen fst snd]. split; [reflexivity|].
    apply no_stop_await; intros x w1.
    + specialize (Hs x w1). specialize (IH x w1).
      destruct (k x w1) as [w2 a']. cbn [fst snd] in *.
      destruct (IH w2) as [E _]. congruence.
    + specialize (IH x w1). destruct (k x w1) as [w2 a']. cbn [fst snd] in *.
      apply IH.
Qed.

Lemma quiet_seq (p rest : Proc) : quiet p -> quiet rest -> quiet (seq p rest).
Proof.
  intros Hp Hr w. unfold seq. destruct (Hp w) as [E N].
  destruct (p w) as [w1 a]. cbn [fst snd] in *.
  destruct (quiet_andThen a rest N Hr w1) as [E1 N1].
  split; [congruence | exact N1].
Qed.

Lemma quiet_loadHistory (n : jsnum) : quiet (loadHistory n).
Proof.
  intros w. destruct (loadHistory_segments n w) as (k & E & K).
  rewrite E. cbn [fst snd]. split; [apply stops_log; reflexivity|].
  apply no_stop_await; intros res wa;
    destruct (K res wa) as (k2 & E2 & K2); rewrite E2; cbn [fst snd];
    [reflexivity|].
  apply no_stop_await; intros data wb;
    destruct (K2 data wb) as (wc & E3 & T & _); rewrite E3; cbn [fst snd].
  - apply stops_trace, T.
  - apply no_stop_done.
Qed.

Lemma trace_render_conversations (data : list Conversation) (w : World) :
  trace
    (fold_left
       (fun w c => set_conversationsUl (conversationsUl w ++ [conversation_li c]) w)
       data w)
  = trace w.
Proof.
  revert w. induction data as [|c data IH]; intros w; simpl; trivial.
  rewrite IH. reflexivity.
Qed.

Lemma quiet_fetchConversations : quiet fetchConversations.
Proof.
  intros w. unfold fetchConversations, await_fetch, await_json.
  cbn [fst snd]. split; [apply stops_log; reflexivity|].
  apply no_stop_await; intros res wa; cbn [fst snd]; [reflexivity|].
  apply no_stop_await; intros data wb; cbn [fst snd].
  - apply stops_trace. rewrite trace_render_conversations. reflexivity.
  - apply no_stop_done.
Qed.

Lemma quiet_submit : quiet chatForm_submit.
Proof.
  intros w. destruct (trim (textInput_value w)) as [|c r] eqn:E.
  - rewrite (submit_blank w E). cbn [fst snd].
    split; [apply stops_log; reflexivity | apply no_stop_done].
  - assert (H : trim (textInput_value w) <> []) by congruence.
    destruct (submit_send w H) as (rq & k & Es & _ & K).
    rewrite Es. cbn [fst snd]. split.
    + rewrite stops_log by reflexivity. apply stops_log. reflexivity.
    + apply no_stop_await; intros res wa;
        destruct (K res wa) as (k2 & E2 & K2); rewrite E2; cbn [fst snd];
        [reflexivity|].
      apply no_stop_await; intros data wb; rewrite K2; cbn [fst snd];
        [reflexivity | apply no_stop_done].
Qed.

Lemma quiet_onstop : quiet recorder_onstop.
Proof.
  intros w. unfold recorder_onstop, await_fetch, await_json. cbn [fst snd].
  split; [apply stops_log; reflexivity|].
  apply no_stop_await; intros res wa; cbn [fst snd]; [reflexivity|].
  apply no_stop_await; intros data wb; cbn [fst snd];
    [reflexivity | apply no_stop_done].
Qed.

Lemma quiet_mousedown : quiet micBtn_mousedown.
Proof.
  intros w. unfold micBtn_mousedown. destruct (mediaDevices w); cbn [negb fst snd].
  - split; [apply stops_log; reflexivity|].
    apply no_stop_await; intros s wa; cbn [fst snd].
    + unfold stops. cbn. rewrite filter_app. simpl. rewrite filter_app. simpl.
      rewrite !app_nil_r. reflexivity.
    + apply no_stop_done.
  - split; [apply stops_log; reflexivity | apply no_stop_done].
Qed.

Lemma quiet_closure (cl : Closure) (b : Blob) : quiet (call_closure cl b).
Proof.
  destruct cl as [c| |]; cbn [call_closure].
  - intros w. unfold li_onclick_body.
    apply (quiet_loadHistory (Int (id c))
             (set_convIdInput_value (toString (Int (id c))) w)).
  - intros w. cbn [fst snd]. split; [reflexivity | apply no_stop_done].
  - apply quiet_onstop.
Qed.

Lemma quiet_fire (h : option Closure) (b : Blob) : quiet (fire h b).
Proof.
  destruct h as [cl|]; cbn [fire]; [apply quiet_closure|].
  intros w. split; [reflexivity | apply no_stop_done].
Qed.

(** The release listener leaves the page as it is unless the flag is set
    and the recorder is there and not inactive; then it stops it once. *)
Lemma release_cases (w : World) :
  (recording w = true /\
   (exists r, mediaRecorder w = Some r /\ state r <> Inactive) /\
   stops (micBtn_release w) = S (stops w))
  \/ micBtn_release w = w.
Proof.
  unfold micBtn_release. destruct (recording w) eqn:R; [|right; reflexivity].
  destruct (mediaRecorder w) as [r|] eqn:M; [|right; reflexivity].
  destruct (state r) eqn:S; cbn [is_inactive negb]; [right; reflexivity| |];
    left; (split; [reflexivity|]); (split; [exists r; split; congruence|]);
    unfold stops; cbn; rewrite filter_app, length_app; simpl; lia.
Qed.

(** Every listener other than the release listener never stops the
    recorder, neither at once nor in a later segment. *)
Lemma dispatch_quiet (ev : Event) (w : World) :
  no_stop (snd (dispatch ev w)) /\
  (stops (fst (dispatch ev w)) <> stops w ->
   (ev = MouseUp \/ ev = MouseLeave) /\
   recording w = true /\
   exists r, mediaRecorder w = Some r /\ state r <> Inactive).
Proof.
  assert (Q : forall (p : Proc) (P : Prop), quiet p ->
            no_stop (snd (p w)) /\ (stops (fst (p w)) <> stops w -> P)).
  { intros p P Hp. destruct (Hp w) as [E N]. split; [exact N | congruence]. }
  destruct ev as [| | | | |i|b]; cbn [dispatch].
  - apply Q. unfold init. apply quiet_seq; [apply quiet_fetchConversations|].
    intros w1. apply quiet_loadHistory.
  - apply Q, quiet_submit.
  - apply Q, quiet_mousedown.
  - cbn [fst snd]. split; [apply no_stop_done|]. intros H.
    destruct (release_cases w) as [(R & M & _)|E]; [auto | congruence].
  - cbn [fst snd]. split; [apply no_stop_done|]. intros H.
    destruct (release_cases w) as [(R & M & _)|E]; [auto | congruence].
  - destruct (nth_error (conversationsUl w) i) as [li|].
    + apply (Q (fire (li_onclick li) (mkBlob [] []))), quiet_fire.
    + cbn [fst snd]. split; [apply no_stop_done | congruence].
  - destruct (queue w) as [|[|] q].
    + cbn [fst snd]. split; [apply no_stop_done | congruence].
    + destruct (quiet_fire (recorder_handler ondataavailable w) b (set_queue q w))
        as [E N].
      split; [exact N|]. intros H. exfalso. apply H. rewrite E. reflexivity.
    + destruct (quiet_fire (recorder_handler onstop w) b (set_queue q w))
        as [E N].
      split; [exact N|]. intros H. exfalso. apply H. rewrite E. reflexivity.
Qed.

Lemma no_stop_suspend (a : Async) (ps : list Async) :
  no_stop a -> Forall no_stop ps -> Forall no_stop (suspend a ps).
Proof.
  intros Ha Hp. destruct a; cbn [suspend]; trivial.
  apply Forall_app. split; [exact Hp | constructor; [exact Ha | constructor]].
Qed.

Lemma step_no_stop (c c1 : Config) (t : Turn) :
  step c t c1 -> Forall no_stop (snd c) -> Forall no_stop (snd c1).
Proof.
  intros St. destruct St as [ev w ps w1 a D|X e k x w ps1 ps2 w1 a D|X e k w ps1 ps2];
    cbn [snd]; intros H.
  - apply no_stop_suspend; [|exact H].
    pose proof (proj1 (dispatch_quiet ev w)) as N. rewrite D in N. exact N.
  - apply Forall_app in H. destruct H as [H1 H2].
    inversion H2 as [|a0 l0 Ha Hl]; subst.
    apply no_stop_suspend; [|apply Forall_app; split; assumption].
    destruct (no_stop_inv _ Ha) as [_ Hn].
    specialize (Hn x w). rewrite D in Hn. exact Hn.
  - apply Forall_app in H. destruct H as [H1 H2].
    inversion H2; subst. apply Forall_app; split; assumption.
Qed.

Lemma exec_steps (c0 cf : Config) l :
  exec c0 l cf ->
  Forall no_stop (snd c0) ->
  forall c t c1, In (c, t, c1) l -> step c t c1 /\ Forall no_stop (snd c).
Proof.
  induction 1 as [c0|c0 t0 c1' l c2 St Ex IH]; intros Inv c t c1 Hin.
  - destruct Hin.
  - destruct Hin as [E|Hin].
    + inversion E; subst. split; assumption.
    + apply IH; [|exact Hin]. apply (step_no_stop _ _ _ St Inv).
Qed.

Lemma step_stops (c c1 : Config) (t : Turn) :
  step c t c1 ->
  Forall no_stop (snd c) ->
  stops (fst c1) <> stops (fst c) ->
  (t = TEvent MouseUp \/ t = TEvent MouseLeave) /\
  recording (fst c) = true /\
  exists r, mediaRecorder (fst c) = Some r /\ state r <> Inactive.
Proof.
  intros St. destruct St as [ev w ps w1 a D|X e k x w ps1 ps2 w1 a D|X e k w ps1 ps2];
    cbn [fst snd]; intros Inv H.
  - pose proof (proj2 (dispatch_quiet ev w)) as G. rewrite D in G.
    destruct (G H) as ([-> | ->] & R & M); auto.
  - apply Forall_app in Inv. destruct Inv as [_ Inv].
    inversion Inv as [|a0 l0 Ha _]; subst.
    destruct (no_stop_inv _ Ha) as [Hs _].
    specialize (Hs x w). rewrite D in Hs. contradiction.
  - contradiction H. reflexivity.
Qed.

(** C6: when the flag is not set, or there is no recorder, or the recorder
    is inactive, the release listener (mouseup and mouseleave alike) leaves
    the page exactly as it is: no stop is called, nothing is queued on the
    recorder, no request is made.  And in every execution of the page, a
    turn in which [stop()] is called is a release of the button that found
    the flag set and the recorder not inactive. *)
Theorem release_stop_guarded (w w0 : World) l (cf c c1 : Config) (t : Turn) :
  (recording w = false \/ mediaRecorder w = None \/
   (exists r, mediaRecorder w = Some r /\ state r = Inactive) ->
   micBtn_release w = w /\
   dispatch MouseUp w = (w, Done) /\
   dispatch MouseLeave w = (w, Done))
  /\
  (exec (w0, []) l cf ->
   In (c, t, c1) l ->
   stops (fst c1) <> stops (fst c) ->
   (t = TEvent MouseUp \/ t = TEvent MouseLeave) /\
   recording (fst c) = true /\
   exists r, mediaRecorder (fst c) = Some r /\ state r <> Inactive).
Proof.
  split.
  - intros H.
    assert (E : micBtn_release w = w).
    { destruct (release_cases w) as [(R & (r & M & S) & _)|E]; [|exact E].
      destruct H as [H|[H|(r' & M' & S')]]; congruence. }
    cbn [dispatch]. rewrite E. auto.
  - intros Ex Hin H.
    destruct (exec_steps _ _ _ Ex (Forall_nil _) _ _ _ Hin) as [St Inv].
    exact (step_stops _ _ _ St Inv H).
Qed.

(** *** A recording cycle *)

(** Pressing the button on a platform with media devices, once the
    microphone stream [s] has been granted. *)
Lemma press_starts_recording (env : Env) (w : World) (s : MediaStream) :
  mediaDevices w = true ->
  (forall w', env w' _ GetUserMedia = Some s) ->
  run env (dispatch MouseDown) w =
    (mkWorld (conversationsUl w) (messagesDiv w) (scrollTop w)
       (textInput_value w) (convIdInput_value w) (useRagCb_checked w)
       (record_glyph ++ lit " Recording...") true
       (Some (mkRecorder Recording s (Some ClPushChunk) (Some ClUpload)))
       [] true (queue w)
       (trace w ++ [CGetUserMedia; CNewRecorder s; CRecorderStart]),
     Fulfilled).
Proof.
  intros Hm Hg. unfold run. cbn [dispatch]. unfold micBtn_mousedown.
  rewrite Hm. cbn [negb run_async]. rewrite Hg.
  cbn [run_async]. f_equal.
  destruct w as [ul md st ti ci ur mt dev mr ch rc qu tr].
  cbn [mediaDevices] in Hm. subst dev.
  cbv -[lit app]. rewrite <- !app_assoc. reflexivity.
Qed.

(** Releasing the button while the recorder records. *)
Lemma release_stops_recording (w : World) (r : MediaRecorder) :
  recording w = true ->
  mediaRecorder w = Some r ->
  state r = Recording ->
  micBtn_release w =
    mkWorld (conversationsUl w) (messagesDiv w) (scrollTop w)
      (textInput_value w) (convIdInput_value w) (useRagCb_checked w)
      mic_glyph (mediaDevices w)
      (Some (mkRecorder Inactive (stream r) (ondataavailable r) (onstop r)))
      (chunks w) false (queue w ++ [EvDataAvailable; EvStop])
      (trace w ++ [CRecorderStop]).
Proof.
  intros Hr Hm Hs. unfold micBtn_release. rewrite Hr, Hm, Hs.
  cbn [is_inactive negb].
  destruct w as [ul md st ti ci ur mt dev mr ch rc qu tr].
  cbn [mediaRecorder] in Hm. subst mr. reflexivity.
Qed.




End Properties.

(** * Further properties of the script *)

Section MoreProperties.

Context {platform : Platform}.

(** ** Sequencing of async calls *)

(** Awaiting [p] and then running [rest] runs [rest] where [p] ended, and
    not at all when [p] was rejected. *)
Lemma run_andThen (env : Env) (rest : Proc) :
  forall (a : Async) (w : World),
    (let (w1, a1) := andThen a rest w in run_async env a1 w1) =
    match run_async env a w with
    | (w1, Fulfilled) => run env rest w1
    | (w1, Rejected) => (w1, Rejected)
    end.
Proof.
  fix IH 1. intros a w. destruct a as [|X e k].
  - reflexivity.
  - cbn [andThen run_async]. destruct (env w X e) as [x|]; [|reflexivity].
    specialize (IH (snd (k x w)) (fst (k x w))).
    destruct (k x w) as [w2 a']. exact IH.
Qed.

Lemma run_seq (env : Env) (p rest : Proc) (w : World) :
  run env (seq p rest) w =
  match run env p w with
  | (w1, Fulfilled) => run env rest w1
  | (w1, Rejected) => (w1, Rejected)
  end.
Proof.
  unfold run at 1 2, seq. destruct (p w) as [w1 a]. apply run_andThen.
Qed.

Lemma run_at (env : Env) (f : World -> Proc) (w : World) :
  run env (fun w0 => f w0 w0) w = run env (f w) w.
Proof. reflexivity. Qed.

(** ** Running the two loaders *)

Lemma fold_conversations (convs : list Conversation) (w : World) :
  fold_left
    (fun w c => set_conversationsUl (conversationsUl w ++ [conversation_li c]) w)
    convs w
  = set_conversationsUl (conversationsUl w ++ map conversation_li convs) w.
Proof.
  revert w. induction convs as [|c convs IH]; intros w; cbn [fold_left map].
  - rewrite app_nil_r. destruct w; reflexivity.
  - rewrite IH. cbn [set_conversationsUl conversationsUl].
    rewrite <- app_assoc. reflexivity.
Qed.

Lemma fold_messages (hist : list Message) (w : World) :
  fold_left (fun w m => addMessage (role m) (content m) (audio_path m) w) hist w
  = set_messagesDiv (messagesDiv w ++ map bubble_of hist) w.
Proof.
  revert w. induction hist as [|m hist IH]; intros w; cbn [fold_left map].
  - rewrite app_nil_r. destruct w; reflexivity.
  - rewrite IH. unfold addMessage. cbn [set_messagesDiv messagesDiv].
    rewrite <- app_assoc. reflexivity.
Qed.

Lemma run_fetchConversations_ok (env : Env) (w : World) (res : Response)
    (convs : list Conversation) :
  (forall w', env w' _ (Fetch conversations_request) = Some res) ->
  (forall w', env w' _ (ResJson SConversations res) = Some convs) ->
  run env fetchConversations w =
    (set_conversationsUl (map conversation_li convs)
       (log (CFetch conversations_request) w),
     Fulfilled).
Proof.
  intros Hf Hj. unfold run, fetchConversations, await_fetch, await_json.
  cbn [run_async]. fold conversations_request. rewrite Hf. cbn [run_async].
  rewrite Hj. cbn [run_async]. rewrite fold_conversations. reflexivity.
Qed.


(** A loader whose request fails, or whose response does not parse, ends
    rejected right after the request: the page shows what it showed. *)
Lemma run_fetchConversations_fail (env : Env) (w : World) :
  (forall w', env w' _ (Fetch conversations_request) = None) \/
  (forall w' res, env w' _ (ResJson SConversations res) = None) ->
  run env fetchConversations w =
    (log (CFetch conversations_request) w, Rejected).
Proof.
  intros H. unfold run, fetchConversations, await_fetch, await_json.
  cbn [run_async]. fold conversations_request.
  destruct H as [Hf|Hj].
  - rewrite Hf. reflexivity.
  - destruct (env _ _ (Fetch conversations_request)) as [res|]; [|reflexivity].
    cbn [run_async]. rewrite Hj. reflexivity.
Qed.


(** ** The initializer *)


(** X2: when the conversation list cannot be loaded -- the request fails
    or its body does not parse -- the initializer stops there: the history
    is never requested, and list and transcript stay as the page had
    them. *)
Theorem init_stops_when_list_fails (env : Env) (w : World) :
  (forall w', env w' _ (Fetch (GET (lit "/api/conversations"))) = None) \/
  (forall w' res, env w' _ (ResJson SConversations res) = None) ->
  exists w1,
    run env init w = (w1, Rejected) /\
    trace w1 = trace w ++ [CFetch (GET (lit "/api/conversations"))] /\
    conversationsUl w1 = conversationsUl w /\
    messagesDiv w1 = messagesDiv w /\
    scrollTop w1 = scrollTop w.
Proof.
  intros H. unfold init. rewrite run_seq.
  rewrite (run_fetchConversations_fail env w H).
  eexists. split; [reflexivity|]. repeat split.
Qed.

(** X3: when the conversation-id field does not parse as an integer, the
    initializer still asks for a history, at the path /api/history/NaN. *)
Theorem init_requests_history_of_NaN (env : Env) (w : World) (res : Response)
    (convs : list Conversation) :
  parseInt10 (convIdInput_value w) = NaN ->
  (forall w', env w' _ (Fetch (GET (lit "/api/conversations"))) = Some res) ->
  (forall w', env w' _ (ResJson SConversations res) = Some convs) ->
  In (CFetch (GET (lit "/api/history/NaN"))) (trace (fst (run env init w))).
Proof.
  intros Hn Hf Hc. unfold init. rewrite run_seq.
  rewrite (run_fetchConversations_ok env w res convs Hf Hc).
  rewrite (run_at env (fun w0 => loadHistory (parseInt10 (convIdInput_value w0)))).
  cbn [log set_trace set_conversationsUl convIdInput_value]. rewrite Hn.
  unfold run, loadHistory, await_fetch. cbn [run_async].
  match goal with
  | |- In _ (trace (fst (match ?o with _ => _ end))) => destruct o as [r|]
  end.
  - unfold await_json. cbn [run_async].
    match goal with
    | |- In _ (trace (fst (match ?o with _ => _ end))) => destruct o as [d|]
    end; cbn [run_async fst].
    + rewrite fold_messages. unfold scroll_to_end, assign_scrollTop.
      cbn [set_scrollTop set_messagesDiv log set_trace trace].
      apply in_or_app. right. left. reflexivity.
    + cbn [log set_trace trace]. apply in_or_app. right. left. reflexivity.
  - cbn [fst log set_trace trace]. apply in_or_app. right. left. reflexivity.
Qed.

(** ** Pressing and releasing the microphone button *)

(** X4: a press on a platform with media devices, once the microphone is
    granted, makes three platform calls in order (getUserMedia, new
    MediaRecorder on the granted stream, start), leaves a recording
    recorder with both handlers installed in [mediaRecorder], discards the
    chunks of any earlier recording, sets the flag and switches the label;
    the rest of the page is as it was. *)
Theorem press_granted_starts_recording (env : Env) (w : World) (s : MediaStream) :
  mediaDevices w = true ->
  (forall w', env w' _ GetUserMedia = Some s) ->
  exists w1,
    run env micBtn_mousedown w = (w1, Fulfilled) /\
    trace w1 = trace w ++ [CGetUserMedia; CNewRecorder s; CRecorderStart] /\
    mediaRecorder w1 =
      Some (mkRecorder Recording s (Some ClPushChunk) (Some ClUpload)) /\
    chunks w1 = [] /\
    recording w1 = true /\
    micBtn_textContent w1 = record_glyph ++ lit " Recording..." /\
    messagesDiv w1 = messagesDiv w /\
    conversationsUl w1 = conversationsUl w /\
    textInput_value w1 = textInput_value w /\
    convIdInput_value w1 = convIdInput_value w /\
    queue w1 = queue w.
Proof.
  intros Hm Hg. eexists. split.
  - exact (press_starts_recording env w s Hm Hg).
  - repeat split.
Qed.

(** X5: when the microphone is refused, the press has asked for it and
    done nothing else: no recorder is created, the flag, the chunks and the
    label are as before, and nothing tells the user. *)
Theorem press_denied_changes_nothing (env : Env) (w : World) :
  mediaDevices w = true ->
  (forall w', env w' _ GetUserMedia = None) ->
  exists w1,
    run env micBtn_mousedown w = (w1, Rejected) /\
    trace w1 = trace w ++ [CGetUserMedia] /\
    mediaRecorder w1 = mediaRecorder w /\
    chunks w1 = chunks w /\
    recording w1 = recording w /\
    micBtn_textContent w1 = micBtn_textContent w /\
    messagesDiv w1 = messagesDiv w.
Proof.
  intros Hm Hg. unfold run, micBtn_mousedown. rewrite Hm.
  cbn [negb run_async]. rewrite Hg.
  eexists. split; [reflexivity|]. repeat split.
Qed.

(** X6: releasing twice is releasing once: the second of a mouseup and a
    mouseleave finds the flag cleared and does nothing, so one press is
    answered by at most one stop. *)
Theorem release_twice_is_release_once (w : World) :
  micBtn_release (micBtn_release w) = micBtn_release w /\
  (stops (micBtn_release (micBtn_release w)) <= S (stops w))%nat.
Proof.
  assert (E : micBtn_release (micBtn_release w) = micBtn_release w).
  { destruct w as [ul md st ti ci ur mt dev mr ch rc qu tr].
    destruct rc; [|reflexivity].
    destruct mr as [[[| |] sm h1 h2]|]; reflexivity. }
  split; [exact E|]. rewrite E.
  destruct (release_cases w) as [(_ & _ & H)|H]; rewrite H; lia.
Qed.

(** ** The upload *)

Lemma fold_chunks (bs : list Blob) (w : World) :
  fold_left (fun w b => recorder_ondataavailable b w) bs w
  = set_chunks (chunks w ++ bs) w.
Proof.
  revert w. induction bs as [|b bs IH]; intros w; cbn [fold_left].
  - rewrite app_nil_r. destruct w; reflexivity.
  - rewrite IH. unfold recorder_ondataavailable. cbn [set_chunks chunks].
    rewrite <- app_assoc. reflexivity.
Qed.

(** What the stop handler does, segment by segment. *)
Lemma onstop_segments (w : World) :
  exists k,
    recorder_onstop w =
      (log (CFetch
              (mkRequest (lit "/api/say") (lit "POST") []
                 (FormBody
                    [(lit "audio",
                      FFile (new_Blob (chunks w) (lit "audio/webm"))
                        (lit "speech.webm"));
                     (lit "conversation_id",
                      FString (toString (parseInt10 (convIdInput_value w))));
                     (lit "use_rag",
                      FString (if useRagCb_checked w
                               then lit "true" else lit "false"))]))) w,
       Await (Fetch
                (mkRequest (lit "/api/say") (lit "POST") []
                   (FormBody
                      [(lit "audio",
                        FFile (new_Blob (chunks w) (lit "audio/webm"))
                          (lit "speech.webm"));
                       (lit "conversation_id",
                        FString (toString (parseInt10 (convIdInput_value w))));
                       (lit "use_rag",
                        FString (if useRagCb_checked w
                                 then lit "true" else lit "false"))]))) k) /\
    forall res wa, exists k2,
      k res wa = (wa, Await (ResJson SSay res) k2) /\
      forall data wb,
        k2 data wb =
          (scroll_to_end
             (addMessage (lit "assistant")
                (Some (or_else (reply data) (lit "(no reply)"))) None
                (addMessage (lit "user")
                   (Some (or_else (transcript data) (lit "(no speech)")))
                   (audio_url data) wb)),
           Done).
Proof.
  unfold recorder_onstop, await_fetch. eexists. split; [reflexivity|].
  intros res wa. unfold await_json. eexists. split; [reflexivity|].
  intros data wb. reflexivity.
Qed.

(** X7: the chunks the recorder delivers after a press are uploaded as
    one file: its bytes are the chunks' bytes in the order of delivery, its
    type is audio/webm whatever the chunks' types are, and it is uploaded
    even when no chunk, or only empty chunks, arrived. *)
Theorem upload_joins_chunks_in_order (bs : list Blob) (w : World) :
  exists w1 rq k fd,
    recorder_onstop
      (fold_left (fun w b => recorder_ondataavailable b w) bs (set_chunks [] w))
    = (w1, Await (Fetch rq) k) /\
    url rq = lit "/api/say" /\
    body rq = FormBody fd /\
    nth_error fd 0 =
      Some (lit "audio",
            FFile (mkBlob (List.concat (map blob_bytes bs)) (lit "audio/webm"))
              (lit "speech.webm")).
Proof.
  rewrite fold_chunks. cbn [set_chunks chunks app].
  match goal with
  | |- context [recorder_onstop ?x] => destruct (onstop_segments x) as (k & E & _)
  end.
  rewrite E. eexists _, _, k, _. split; [reflexivity|].
  split; [reflexivity|]. split; [reflexivity|]. reflexivity.
Qed.

(** X8: when the conversation-id field does not parse as an integer, the
    upload is still made and its conversation_id field is the text NaN. *)
Theorem upload_sends_NaN_id (w : World) :
  parseInt10 (convIdInput_value w) = NaN ->
  exists w1 rq k fd,
    recorder_onstop w = (w1, Await (Fetch rq) k) /\
    trace w1 = trace w ++ [CFetch rq] /\
    body rq = FormBody fd /\
    nth_error fd 1 = Some (lit "conversation_id", FString (lit "NaN")).
Proof.
  intros Hn. destruct (onstop_segments w) as (k & E & _).
  rewrite E, Hn. eexists _, _, k, _. split; [reflexivity|].
  split; [reflexivity|]. split; reflexivity.
Qed.

(** ** More on the chat form *)

Lemma fetches_log (c : Call) (w : World) :
  fetches (log c w) = fetches w ++ (if is_fetch c then [c] else []).
Proof.
  unfold fetches. cbn [log set_trace trace]. rewrite filter_app.
  cbn [filter]. destruct (is_fetch c); reflexivity.
Qed.

(** The submit listener run to its end, in each way it can end. *)
Lemma run_submit_cases (env : Env) (w : World) :
  trim (textInput_value w) <> [] ->
  exists rq,
    let sent :=
      log (CFetch rq)
        (set_textInput_value []
           (addMessage (lit "user") (Some (trim (textInput_value w))) None
              (log CPreventDefault w))) in
    url rq = lit "/api/chat" /\
    (run env chatForm_submit w = (sent, Rejected) /\
     (env sent _ (Fetch rq) = None \/
      exists res, env sent _ (Fetch rq) = Some res /\
                  env sent _ (ResJson SChat res) = None)
     \/
     exists res data,
       env sent _ (Fetch rq) = Some res /\
       env sent _ (ResJson SChat res) = Some data /\
       run env chatForm_submit w =
         (scroll_to_end
            (addMessage (lit "assistant")
               (Some (or_else (chat_reply data) (lit "(no reply)"))) None sent),
          Fulfilled)).
Proof.
  intros H. destruct (submit_send w H) as (rq & k & E & Hrq & K).
  exists rq. cbv zeta. split; [rewrite Hrq; reflexivity|].
  unfold run. rewrite E. cbn [run_async].
  match goal with |- context [env ?x _ (Fetch rq)] => set (sent := x) end.
  destruct (env sent _ (Fetch rq)) as [res|] eqn:Ef; [|left; auto].
  destruct (K res sent) as (k2 & E2 & K2). rewrite E2. cbn [run_async].
  destruct (env sent _ (ResJson SChat res)) as [data|] eqn:Ej.
  - right. exists res, data. rewrite K2. cbn [run_async]. auto.
  - left. split; [reflexivity|]. right. exists res. auto.
Qed.




(** X11: however its request ends, a chat submission makes at most one
    request and touches only the transcript, its scroll position and the
    text input: the conversation list, the conversation-id field, the
    checkbox, the recorder, its chunks, the recording flag, the button
    label and the recorder's pending events are as before. *)
Theorem submit_leaves_the_rest (env : Env) (w : World) :
  let w1 := fst (run env chatForm_submit w) in
  conversationsUl w1 = conversationsUl w /\
  convIdInput_value w1 = convIdInput_value w /\
  useRagCb_checked w1 = useRagCb_checked w /\
  mediaRecorder w1 = mediaRecorder w /\
  chunks w1 = chunks w /\
  recording w1 = recording w /\
  micBtn_textContent w1 = micBtn_textContent w /\
  queue w1 = queue w /\
  (List.length (fetches w1) <= S (List.length (fetches w)))%nat.
Proof.
  cbv zeta. destruct (trim (textInput_value w)) as [|c r] eqn:Et.
  - unfold run. rewrite (submit_blank w Et). cbn [run_async fst].
    repeat split. rewrite fetches_log. cbn [is_fetch]. rewrite app_nil_r. lia.
  - assert (H : trim (textInput_value w) <> []) by congruence.
    assert (F : forall rq,
      List.length (fetches
        (log (CFetch rq)
          (set_textInput_value []
            (addMessage (lit "user") (Some (trim (textInput_value w))) None
              (log CPreventDefault w))))) = S (List.length (fetches w))).
    { intros rq. rewrite fetches_log. cbn [is_fetch]. rewrite length_app.
      change (fetches (set_textInput_value [] _))
        with (fetches (log CPreventDefault w)).
      rewrite fetches_log. cbn [is_fetch]. rewrite app_nil_r. cbn. lia. }
    destruct (run_submit_cases env w H) as (rq & _ & [[E _]|(res & data & _ & _ & E)]);
      rewrite E; cbn [fst]; repeat split;
      try (change (fetches (scroll_to_end (addMessage ?a ?b ?c ?x)))
             with (fetches x));
      rewrite ?F; lia.
Qed.

(** X12: when the chat request fails or its response does not parse, the
    submission ends rejected with the user's bubble already shown and the
    input already cleared: nothing is rolled back and no assistant bubble
    or notice is added. *)
Theorem failed_submit_is_not_rolled_back (env : Env) (w : World) :
  trim (textInput_value w) <> [] ->
  (forall w' rq, env w' _ (Fetch rq) = None) \/
  (forall w' res, env w' _ (ResJson SChat res) = None) ->
  exists w1,
    run env chatForm_submit w = (w1, Rejected) /\
    messagesDiv w1 =
      messagesDiv w ++ [mkBubble (lit "msg user") (trim (textInput_value w)) []] /\
    textInput_value w1 = [] /\
    scrollTop w1 = scrollTop w.
Proof.
  intros H Hfail.
  destruct (run_submit_cases env w H)
    as (rq & _ & [[E _]|(res & data & Ef & Ej & _)]).
  - eexists. split; [exact E|]. split; [|split; reflexivity].
    cbn [log set_trace set_textInput_value messagesDiv].
    rewrite messagesDiv_addMessage, make_bubble_plain. reflexivity.
  - destruct Hfail as [Hf|Hj]; [rewrite Hf in Ef | rewrite Hj in Ej];
      discriminate.
Qed.

(** X13: a submission right after a sent one, with nothing typed in
    between, does nothing: the first one has emptied the input. *)
Theorem resubmit_without_typing_is_noop (w : World) :
  trim (textInput_value w) <> [] ->
  exists w1 rq k,
    chatForm_submit w = (w1, Await (Fetch rq) k) /\
    chatForm_submit w1 = (log CPreventDefault w1, Done).
Proof.
  intros H. destruct (submit_send w H) as (rq & k & E & _ & _).
  eexists _, rq, k. split; [exact E|]. apply submit_blank. reflexivity.
Qed.



(** ** Invariants of the event loop *)

Lemma eqb_false (a b : jsstring) : a <> b -> JsString.eqb a b = false.
Proof.
  intros H. unfold JsString.eqb. destruct (list_eq_dec N.eq_dec a b); congruence.
Qed.

Lemma history_not_upload (n : jsnum) : is_upload (CFetch (history_request n)) = false.
Proof.
  apply eqb_false. cbn [history_request GET url lit app]. vm_compute.
  discriminate.
Qed.

Lemma uploads_log (c : Call) (w : World) :
  uploads (log c w) = (uploads w + (if is_upload c then 1 else 0))%nat.
Proof.
  unfold uploads. cbn [log set_trace trace]. rewrite filter_app, length_app.
  cbn [filter]. destruct (is_upload c); reflexivity.
Qed.

Lemma stops_log' (c : Call) (w : World) :
  stops (log c w) = (stops w + (if is_stop c then 1 else 0))%nat.
Proof.
  unfold stops. cbn [log set_trace trace]. rewrite filter_app, length_app.
  cbn [filter]. destruct (is_stop c); reflexivity.
Qed.

(** Logging a call that is neither a stop nor an upload. *)
Lemma Sound_log (c : Call) (w : World) :
  api_call c -> is_stop c = false -> is_upload c = false ->
  Sound w -> Sound (log c w).
Proof.
  intros Hc Hs Hu [A B C D E]. constructor.
  - exact A.
  - exact B.
  - cbn [log set_trace trace]. apply Forall_app. split; [exact C|].
    constructor; [exact Hc | constructor].
  - rewrite uploads_log, stops_log', Hs, Hu.
    change (queued_stops (log c w)) with (queued_stops w). lia.
  - exact E.
Qed.

Ltac sound_same H :=
  let A := fresh in let B := fresh in let C := fresh in
  let D := fresh in let E := fresh in
  destruct H as [A B C D E];
  constructor; [exact A | exact B | exact C | exact D | exact E].

Lemma Sound_messages v (w : World) : Sound w -> Sound (set_messagesDiv v w).
Proof. intros H. sound_same H. Qed.

Lemma Sound_scroll (w : World) : Sound w -> Sound (scroll_to_end w).
Proof. intros H. sound_same H. Qed.

Lemma Sound_addMessage r t a (w : World) : Sound w -> Sound (addMessage r t a w).
Proof. intros H. sound_same H. Qed.

Lemma Sound_textInput v (w : World) : Sound w -> Sound (set_textInput_value v w).
Proof. intros H. sound_same H. Qed.

Lemma Sound_convId v (w : World) : Sound w -> Sound (set_convIdInput_value v w).
Proof. intros H. sound_same H. Qed.

Lemma Sound_chunks v (w : World) : Sound w -> Sound (set_chunks v w).
Proof. intros H. sound_same H. Qed.

Lemma Sound_list l (w : World) :
  Forall li_ok l -> Sound w -> Sound (set_conversationsUl l w).
Proof. intros Hl [A B C D E]. constructor; assumption. Qed.

Lemma conversation_li_ok (convs : list Conversation) :
  Forall li_ok (map conversation_li convs).
Proof. induction convs; constructor; [exact I | assumption]. Qed.

Lemma api_history (n : jsnum) : api_call (CFetch (history_request n)).
Proof. right. left. exists n. reflexivity. Qed.

Lemma sound_loadHistory (n : jsnum) : sound_proc (loadHistory n).
Proof.
  intros w. unfold loadHistory, await_fetch, await_json. cbn [fst snd]. split.
  - apply Sound_log; [apply api_history | reflexivity | apply history_not_upload].
  - apply keeps_await; intros res wa; cbn [fst snd]; [trivial|].
    apply keeps_await; intros data wb; cbn [fst snd]; [|apply keeps_done].
    intros H. rewrite fold_messages.
    apply Sound_scroll, Sound_messages, Sound_messages, H.
Qed.

Lemma sound_fetchConversations : sound_proc fetchConversations.
Proof.
  intros w. unfold fetchConversations, await_fetch, await_json. cbn [fst snd].
  split.
  - apply Sound_log; [left; reflexivity | reflexivity | reflexivity].
  - apply keeps_await; intros res wa; cbn [fst snd]; [trivial|].
    apply keeps_await; intros data wb; cbn [fst snd]; [|apply keeps_done].
    intros H. rewrite fold_conversations.
    cbn [set_conversationsUl conversationsUl app].
    apply (Sound_list _ wb (conversation_li_ok data) H).
Qed.

Lemma keeps_andThen (a : Async) (rest : Proc) :
  keeps_sound a -> sound_proc rest -> sound_proc (andThen a rest).
Proof.
  intros Ha Hr. induction Ha as [|X e k Hs Hn IH]; intros w.
  - apply Hr.
  - cbn [andThen fst snd]. split; [trivial|].
    apply keeps_await; intros x w1.
    + specialize (Hs x w1). specialize (IH x w1).
      destruct (k x w1) as [w2 a']. cbn [fst snd] in *.
      intros H. apply (proj1 (IH w2)), Hs, H.
    + specialize (IH x w1). destruct (k x w1) as [w2 a']. cbn [fst snd] in *.
      apply IH.
Qed.

Lemma sound_seq (p rest : Proc) :
  sound_proc p -> sound_proc rest -> sound_proc (seq p rest).
Proof.
  intros Hp Hr w. unfold seq. destruct (Hp w) as [E N].
  destruct (p w) as [w1 a]. cbn [fst snd] in *.
  destruct (keeps_andThen a rest N Hr w1) as [E1 N1].
  split; [intros H; apply E1, E, H | exact N1].
Qed.

Lemma sound_submit : sound_proc chatForm_submit.
Proof.
  intros w. destruct (trim (textInput_value w)) as [|c r] eqn:Et.
  - rewrite (submit_blank w Et). cbn [fst snd]. split; [|apply keeps_done].
    apply Sound_log; reflexivity || exact I.
  - assert (H : trim (textInput_value w) <> []) by congruence.
    destruct (submit_send w H) as (rq & k & Es & Hrq & K).
    rewrite Es. cbn [fst snd]. split.
    + intros S. apply Sound_log.
      * right. right. left. rewrite Hrq. split; reflexivity.
      * reflexivity.
      * rewrite Hrq. reflexivity.
      * apply Sound_textInput, Sound_addMessage, Sound_log;
          [exact I | reflexivity | reflexivity | exact S].
    + apply keeps_await; intros res wa;
        destruct (K res wa) as (k2 & E2 & K2); rewrite E2; cbn [fst snd];
        [trivial|].
      apply keeps_await; intros data wb; rewrite K2; cbn [fst snd];
        [|apply keeps_done].
      intros S. apply Sound_scroll, Sound_addMessage, S.
Qed.

Lemma sound_mousedown : sound_proc micBtn_mousedown.
Proof.
  intros w. unfold micBtn_mousedown.
  destruct (mediaDevices w); cbn [negb fst snd].
  - split; [apply Sound_log; reflexivity || exact I|].
    apply keeps_await; intros s wa; cbn [fst snd]; [|apply keeps_done].
    intros [A B C D E]. constructor.
    + exact A.
    + split; reflexivity.
    + cbn. rewrite <- !app_assoc. apply Forall_app. split; [exact C|].
      repeat constructor.
    + unfold uploads, stops, queued_stops in *. cbn.
      rewrite !filter_app, !length_app. cbn. lia.
    + intros _. split; [discriminate | reflexivity].
  - split; [apply Sound_log; reflexivity || exact I | apply keeps_done].
Qed.

Lemma Sound_release (w : World) : Sound w -> Sound (micBtn_release w).
Proof.
  intros S. unfold micBtn_release.
  destruct (recording w) eqn:R; [|exact S].
  destruct (mediaRecorder w) as [r|] eqn:M; [|exact S].
  destruct (is_inactive (state r)); cbn [negb]; [exact S|].
  destruct S as [A B C D E]. constructor.
  - exact A.
  - unfold handlers_ok in *. cbn. rewrite M in *. cbn. exact B.
  - cbn. apply Forall_app. split; [exact C | repeat constructor].
  - unfold uploads, stops, queued_stops in *. cbn.
    rewrite !filter_app, !length_app. cbn. lia.
  - cbn. discriminate.
Qed.

(** Delivering the recorder's next queued event on a sound page. *)
Lemma sound_task (b : Blob) (w : World) :
  Sound w ->
  Sound (fst (dispatch (RecorderTask b) w)) /\
  keeps_sound (snd (dispatch (RecorderTask b) w)).
Proof.
  intros S. cbn [dispatch]. destruct (queue w) as [|[|] q] eqn:Q.
  - split; [exact S | apply keeps_done].
  - assert (S1 : Sound (set_queue q w)).
    { destruct S as [A B C D E].
      constructor; [exact A|exact B|exact C| |exact E].
      unfold queued_stops in *. rewrite Q in D. exact D. }
    unfold recorder_handler. pose proof (sound_handlers w S) as Hh.
    unfold handlers_ok in Hh. destruct (mediaRecorder w) as [r|].
    + rewrite (proj1 Hh). cbn [fire call_closure fst snd].
      split; [apply Sound_chunks, S1 | apply keeps_done].
    + cbn [fire fst snd]. split; [exact S1 | apply keeps_done].
  - unfold recorder_handler. pose proof (sound_handlers w S) as Hh.
    unfold handlers_ok in Hh. destruct (mediaRecorder w) as [r|] eqn:M.
    + rewrite (proj2 Hh). cbn [fire call_closure].
      destruct (onstop_segments (set_queue q w)) as (k & E & K).
      rewrite E. cbn [fst snd]. split.
      * destruct S as [A B C D E0]. constructor.
        -- exact A.
        -- exact B.
        -- cbn [log set_trace trace set_queue]. apply Forall_app.
           split; [exact C|]. constructor; [|constructor].
           right. right. right. split; reflexivity.
        -- rewrite uploads_log, stops_log'. cbn [is_stop is_upload url].
           change (JsString.eqb (lit "/api/say") (lit "/api/say")) with true.
           unfold queued_stops in *. rewrite Q in D. cbn in D.
           change (uploads (set_queue q w)) with (uploads w).
           change (stops (set_queue q w)) with (stops w).
           cbn [log set_trace set_queue queue]. lia.
        -- exact E0.
      * apply keeps_await; intros res wa;
          destruct (K res wa) as (k2 & E2 & K2); rewrite E2; cbn [fst snd];
          [trivial|].
        apply keeps_await; intros data wb; rewrite K2; cbn [fst snd];
          [|apply keeps_done].
        intros S'. apply Sound_scroll, Sound_addMessage, Sound_addMessage, S'.
    + cbn [fire fst snd]. split; [|apply keeps_done].
      destruct S as [A B C D E]. constructor; [exact A|exact B|exact C| |exact E].
      unfold queued_stops in *. rewrite Q in D. cbn in D.
      cbn [set_queue queue].
      change (uploads (set_queue q w)) with (uploads w).
      change (stops (set_queue q w)) with (stops w). lia.
Qed.

Lemma sound_dispatch (ev : Event) (w : World) :
  Sound w ->
  Sound (fst (dispatch ev w)) /\ keeps_sound (snd (dispatch ev w)).
Proof.
  intros S.
  assert (Q : forall p : Proc, sound_proc p ->
            Sound (fst (p w)) /\ keeps_sound (snd (p w))).
  { intros p Hp. destruct (Hp w) as [E N]. auto. }
  destruct ev as [| | | | |i|b].
  - apply Q. unfold init. apply sound_seq; [apply sound_fetchConversations|].
    intros w1. apply sound_loadHistory.
  - apply Q, sound_submit.
  - apply Q, sound_mousedown.
  - cbn [dispatch fst snd]. split; [apply Sound_release, S | apply keeps_done].
  - cbn [dispatch fst snd]. split; [apply Sound_release, S | apply keeps_done].
  - cbn [dispatch]. destruct (nth_error (conversationsUl w) i) as [li|] eqn:Hi;
      [|split; [exact S | apply keeps_done]].
    pose proof (sound_list w S) as Hl. rewrite Forall_forall in Hl.
    specialize (Hl li (nth_error_In _ _ Hi)). unfold li_ok in Hl.
    destruct (li_onclick li) as [[c| |]|]; try contradiction.
    + cbn [fire call_closure]. unfold li_onclick_body.
      destruct (sound_loadHistory (Int (id c))
                  (set_convIdInput_value (toString (Int (id c))) w)) as [E N].
      split; [apply E, Sound_convId, S | exact N].
    + cbn [fire fst snd]. split; [exact S | apply keeps_done].
  - apply sound_task, S.
Qed.

Lemma keeps_inv (a : Async) :
  keeps_sound a ->
  match a with
  | Done => True
  | Await e k =>
      (forall x w, Sound w -> Sound (fst (k x w))) /\
      (forall x w, keeps_sound (snd (k x w)))
  end.
Proof. intros H. destruct H; auto. Qed.

Lemma keeps_suspend (a : Async) (ps : list Async) :
  keeps_sound a -> Forall keeps_sound ps -> Forall keeps_sound (suspend a ps).
Proof.
  intros Ha Hp. destruct a; cbn [suspend]; trivial.
  apply Forall_app. split; [exact Hp | constructor; [exact Ha | constructor]].
Qed.

Lemma step_sound (c c1 : Config) (t : Turn) :
  step c t c1 ->
  Sound (fst c) /\ Forall keeps_sound (snd c) ->
  Sound (fst c1) /\ Forall keeps_sound (snd c1).
Proof.
  intros St. destruct St as [ev w ps w1 a D|X e k x w ps1 ps2 w1 a D|X e k w ps1 ps2];
    cbn [fst snd]; intros [S H].
  - destruct (sound_dispatch ev w S) as [S1 N]. rewrite D in S1, N.
    split; [exact S1 | apply keeps_suspend; assumption].
  - apply Forall_app in H. destruct H as [H1 H2].
    inversion H2 as [|a0 l0 Ha Hl]; subst.
    destruct (keeps_inv _ Ha) as [Hs Hn].
    specialize (Hs x w S). specialize (Hn x w). rewrite D in Hs, Hn.
    split; [exact Hs|]. apply keeps_suspend; [exact Hn|].
    apply Forall_app; split; assumption.
  - apply Forall_app in H. destruct H as [H1 H2]. inversion H2; subst.
    split; [exact S | apply Forall_app; split; assumption].
Qed.

Lemma exec_sound (c0 cf : Config) l :
  exec c0 l cf ->
  Sound (fst c0) /\ Forall keeps_sound (snd c0) ->
  Sound (fst cf).
Proof.
  induction 1 as [c0|c0 t0 c1 l c2 St Ex IH]; intros Inv.
  - apply Inv.
  - apply IH, (step_sound _ _ _ St Inv).
Qed.

Lemma fresh_sound (w : World) : fresh w -> Sound w.
Proof.
  intros (L & M & R & Q & T). constructor.
  - apply Forall_impl with (2 := L). intros li H. unfold li_ok. rewrite H.
    exact I.
  - unfold handlers_ok. rewrite M. exact I.
  - rewrite T. constructor.
  - unfold uploads, stops, queued_stops. rewrite T, Q. cbn. lia.
  - rewrite R. discriminate.
Qed.

Lemma fresh_exec_sound (w0 : World) l (c : Config) :
  fresh w0 -> exec (w0, []) l c -> Sound (fst c).
Proof.
  intros F Ex. apply (exec_sound _ _ _ Ex). split; [|constructor].
  apply fresh_sound, F.
Qed.


(** X17: in every execution from the page as loaded, every request the
    script has made is one of four: GET /api/conversations, GET
    /api/history/<number>, POST /api/chat or POST /api/say. *)
Theorem only_api_requests (w0 : World) l (c : Config) (rq : Request) :
  fresh w0 ->
  exec (w0, []) l c ->
  In (CFetch rq) (trace (fst c)) ->
  rq = GET (lit "/api/conversations")
  \/ (exists n, rq = GET (lit "/api/history/" ++ toString n))
  \/ (url rq = lit "/api/chat" /\ method rq = lit "POST")
  \/ (url rq = lit "/api/say" /\ method rq = lit "POST").
Proof.
  intros F Ex Hin.
  pose proof (sound_calls _ (fresh_exec_sound w0 l c F Ex)) as H.
  rewrite Forall_forall in H. exact (H _ Hin).
Qed.

(** X18: in every execution from the page as loaded, whenever the
    recording flag is set there is a recorder in [mediaRecorder] with the
    chunk handler and the upload handler installed, and the button shows
    the recording label. *)
Theorem recording_flag_means_recorder (w0 : World) l (c : Config) :
  fresh w0 ->
  exec (w0, []) l c ->
  recording (fst c) = true ->
  (exists r,
     mediaRecorder (fst c) = Some r /\
     ondataavailable r = Some ClPushChunk /\
     onstop r = Some ClUpload) /\
  micBtn_textContent (fst c) = record_glyph ++ lit " Recording...".
Proof.
  intros F Ex R. pose proof (fresh_exec_sound w0 l c F Ex) as S.
  destruct (sound_flag _ S R) as [N L]. split; [|exact L].
  pose proof (sound_handlers _ S) as H. unfold handlers_ok in H.
  destruct (mediaRecorder (fst c)) as [r|]; [|congruence].
  exists r. destruct H. auto.
Qed.

(** ** More on rendering, the upload and the list *)

(** X19: [addMessage] appends exactly one bubble after the ones already
    shown and changes nothing else on the page.  The bubble's class is
    "msg " followed by the role, its text is the given text or empty when
    there is none, and it carries the audio link -- a line break and an
    audio-bubble element whose markup holds the reference as it came,
    without escaping -- exactly when the reference is a non-empty string. *)
Theorem addMessage_appends_one_bubble (role : jsstring)
    (text audioUrl : option jsstring) (w : World) :
  exists b,
    addMessage role text audioUrl w = set_messagesDiv (messagesDiv w ++ [b]) w /\
    b_className b = lit "msg " ++ role /\
    b_textContent b = match text with Some t => t | None => [] end /\
    b_children b =
      match audioUrl with
      | Some (c :: u) =>
          [Br;
           Div (lit "audio-bubble")
               (speaker_glyph ++ lit " <a href=" ++ dquote ++ (c :: u)
                ++ dquote ++ lit " target=" ++ dquote ++ lit "_blank"
                ++ dquote ++ lit ">audio</a>")]
      | _ => []
      end.
Proof.
  exists (make_bubble role text audioUrl). split; [reflexivity|].
  split; [apply make_bubble_class|]. split; [apply make_bubble_text|].
  unfold make_bubble. destruct audioUrl as [[|c u]|]; reflexivity.
Qed.

(** X20: when the upload fails or its response does not parse, the stop
    handler ends rejected after the one request: no bubble is added, the
    view is not scrolled, and the recorded chunks stay where they were. *)
Theorem failed_upload_shows_nothing (env : Env) (w : World) :
  (forall w' rq, env w' _ (Fetch rq) = None) \/
  (forall w' res, env w' _ (ResJson SSay res) = None) ->
  exists w1 rq,
    run env recorder_onstop w = (w1, Rejected) /\
    trace w1 = trace w ++ [CFetch rq] /\
    url rq = lit "/api/say" /\
    messagesDiv w1 = messagesDiv w /\
    scrollTop w1 = scrollTop w /\
    chunks w1 = chunks w.
Proof.
  intros Hfail. destruct (onstop_segments w) as (k & E & K).
  unfold run. rewrite E. cbn [run_async].
  match goal with |- context [env ?x _ (Fetch ?r)] => set (sent := x); set (rq := r) end.
  destruct (env sent _ (Fetch rq)) as [res|] eqn:Ef.
  - destruct (K res sent) as (k2 & E2 & _). rewrite E2. cbn [run_async].
    destruct (env sent _ (ResJson SSay res)) as [d|] eqn:Ej.
    + destruct Hfail as [Hf|Hj]; [rewrite Hf in Ef | rewrite Hj in Ej];
        discriminate.
    + exists sent, rq. repeat split.
  - exists sent, rq. repeat split.
Qed.

(** X21: a press with the microphone granted followed by a release puts
    the button back to idle at once, before any upload: the flag is
    cleared, the label is the microphone again, the recorder is inactive
    with its last data event and its stop event queued, and no request has
    been made. *)
Theorem press_then_release_returns_to_idle (env : Env) (w : World)
    (rel : Event) (s : MediaStream) :
  mediaDevices w = true ->
  rel = MouseUp \/ rel = MouseLeave ->
  (forall w', env w' _ GetUserMedia = Some s) ->
  let w2 := run_events env [MouseDown; rel] w in
  recording w2 = false /\
  micBtn_textContent w2 = mic_glyph /\
  mediaRecorder w2 =
    Some (mkRecorder Inactive s (Some ClPushChunk) (Some ClUpload)) /\
  queue w2 = queue w ++ [EvDataAvailable; EvStop] /\
  trace w2 =
    trace w ++ [CGetUserMedia; CNewRecorder s; CRecorderStart; CRecorderStop] /\
  fetches w2 = fetches w.
Proof.
  intros Hm Hrel Hg. cbv zeta.
  assert (R : forall w1, fst (run env (dispatch rel) w1) = micBtn_release w1).
  { intros w1. destruct Hrel as [-> | ->]; reflexivity. }
  cbn [run_events]. rewrite R. clear R Hrel.
  rewrite (press_starts_recording env w s Hm Hg). cbn [fst].
  match goal with
  | |- context [micBtn_release ?x] =>
      rewrite (release_stops_recording x
                 (mkRecorder Recording s (Some ClPushChunk) (Some ClUpload))
                 eq_refl eq_refl eq_refl)
  end.
  cbn [recording micBtn_textContent mediaRecorder queue trace stream
       ondataavailable onstop].
  repeat split.
  - rewrite <- app_assoc. reflexivity.
  - unfold fetches. cbn [trace]. rewrite !filter_app. cbn.
    rewrite !app_nil_r. reflexivity.
Qed.


End MoreProperties.

(** * Examples *)

#[local] Existing Instance test_platform.

Example trim_ex : trim (lit "  hi there ") = lit "hi there".
Proof. reflexivity. Qed.

Example parseInt_ex :
  parseInt10 (lit " 42px") = Int 42 /\ parseInt10 (lit "-17") = Int (-17) /\
  parseInt10 (lit "") = NaN /\ parseInt10 (lit "abc") = NaN.
Proof. repeat split. Qed.

Example toString_ex :
  toString (Int (-305)) = lit "-305" /\ toString (Int 0) = lit "0".
Proof. split; reflexivity. Qed.

(** A release that comes before the microphone is granted finds the flag
    unset and does nothing; the recorder then starts and is not stopped. *)
Example early_release_keeps_recording :
  exists l c,
    exec (blank, []) l c /\
    map (fun x => snd (fst x)) l = [TEvent MouseDown; TEvent MouseUp; TSettle] /\
    recording (fst c) = true /\
    stops (fst c) = 0%nat /\
    queue (fst c) = [] /\
    snd c = [].
Proof.
  eexists _, _. split.
  - eapply exec_cons; [apply (step_event MouseDown); reflexivity|].
    eapply exec_cons; [apply (step_event MouseUp); reflexivity|].
    eapply exec_cons;
      [apply (step_fulfil _ GetUserMedia _ a_stream _ [] []); reflexivity|].
    apply exec_nil.
  - repeat split.
Qed.

(** C1, as stated, fails when the reply is the empty string: the field is
    there, yet the bubble shows the placeholder. *)
Lemma chat_reply_empty_counterexample :
  trim (textInput_value (page "hi" "7")) <> [] /\
  map b_textContent
    (messagesDiv (fst (run env_empty_fields chatForm_submit (page "hi" "7"))))
  = [lit "hi"; lit "(no reply)"] /\
  lit "(no reply)"
  <> field_or_placeholder (chat_reply (mkChatData (Some []))) (lit "(no reply)").
Proof.
  split; [vm_compute; discriminate|]. split; [reflexivity|].
  vm_compute. discriminate.
Qed.

Lemma chat_submit_renders_reply_witness :
  trim (textInput_value (page " hi " "7")) <> [] /\
  exists w1 rq k,
    chatForm_submit (page " hi " "7") = (w1, Await (Fetch rq) k) /\
    messagesDiv w1 = [mkBubble (lit "msg user") (lit "hi") []].
Proof.
  assert (H : trim (textInput_value (page " hi " "7")) <> [])
    by (vm_compute; discriminate).
  split; [exact H|].
  destruct (chat_submit_renders_reply (page " hi " "7") H)
    as (w1 & rq & k & E & M & _).
  exists w1, rq, k. split; [exact E | exact M].
Defined.



Lemma blank_submit_is_noop_witness :
  forallb is_ws (textInput_value (page "   " "7")) = true /\
  exists w1,
    chatForm_submit (page "   " "7") = (w1, Done) /\
    messagesDiv w1 = [] /\
    fetches w1 = [].
Proof.
  split; [reflexivity|].
  destruct (blank_submit_is_noop (page "   " "7") eq_refl)
    as (w1 & E & M & _ & F & _).
  exists w1. split; [exact E|]. split; [exact M | exact F].
Defined.


Lemma release_stop_guarded_witness :
  micBtn_release blank = blank /\
  recording (fst (run env_empty_fields micBtn_mousedown blank)) = true.
Proof.
  pose (w2 := fst (run env_empty_fields micBtn_mousedown blank)).
  assert (Ex : exists l c1,
             exec (blank, []) l c1 /\
             In ((w2, []), TEvent MouseUp, c1) l /\
             stops (fst c1) <> stops w2).
  { eexists _, _. split; [|split].
    - eapply exec_cons; [apply (step_event MouseDown); reflexivity|].
      eapply exec_cons;
        [apply (step_fulfil _ GetUserMedia _ a_stream _ [] []); reflexivity|].
      eapply exec_cons; [apply (step_event MouseUp); reflexivity|].
      apply exec_nil.
    - right. right. left. reflexivity.
    - vm_compute. discriminate. }
  destruct Ex as (l & c1 & Ex & Hin & Hs).
  destruct (release_stop_guarded blank blank l c1 (w2, []) c1 (TEvent MouseUp))
    as [A B].
  split.
  - apply A. left. reflexivity.
  - exact (proj1 (proj2 (B Ex Hin Hs))).
Defined.

Lemma no_media_devices_alert_witness :
  mediaDevices page_without_media = false /\
  exists w1,
    micBtn_mousedown page_without_media = (w1, Done) /\
    trace w1 = [CAlert (lit "No media devices API")] /\
    recording w1 = false /\
    mediaRecorder w1 = None.
Proof.
  split; [reflexivity|].
  destruct (no_media_devices_alert page_without_media eq_refl)
    as (w1 & E & T & R & M & _).
  exists w1. split; [exact E|]. split; [exact T|]. split; [exact R | exact M].
Defined.

Lemma input_cleared_before_response_witness :
  trim (textInput_value (page "hi" "7")) <> [] /\
  textInput_value (fst (chatForm_submit (page "hi" "7"))) = [].
Proof.
  assert (H : trim (textInput_value (page "hi" "7")) <> [])
    by (vm_compute; discriminate).
  split; [exact H|].
  exact (proj1 (input_cleared_before_response (page "hi" "7") []
                  (fst (chatForm_submit (page "hi" "7")),
                   suspend (snd (chatForm_submit (page "hi" "7"))) [])
                  H
                  (step_event FormSubmit (page "hi" "7") []
                     (fst (chatForm_submit (page "hi" "7")))
                     (snd (chatForm_submit (page "hi" "7"))) eq_refl))).
Defined.

Lemma unparsable_id_sent_as_null_witness :
  trim (textInput_value (page "hi" "")) <> [] /\
  parseInt10 (convIdInput_value (page "hi" "")) = NaN /\
  exists w1 rq k,
    chatForm_submit (page "hi" "") = (w1, Await (Fetch rq) k) /\
    body rq =
      TextBody
        (lit "{" ++ dquote ++ lit "conversation_id" ++ dquote ++ lit ":null,"
         ++ dquote ++ lit "text" ++ dquote ++ lit ":" ++ dquote ++ lit "hi"
         ++ dquote ++ lit "," ++ dquote ++ lit "use_rag" ++ dquote
         ++ lit ":false}").
Proof.
  assert (H : trim (textInput_value (page "hi" "")) <> [])
    by (vm_compute; discriminate).
  split; [exact H|]. split; [reflexivity|].
  destruct (unparsable_id_sent_as_null (page "hi" "") H eq_refl)
    as (w1 & rq & k & E & _ & _ & B).
  exists w1, rq, k. split; [exact E | exact B].
Defined.

Lemma blank_submit_keeps_input_witness :
  forallb is_ws (textInput_value (page "   " "7")) = true /\
  textInput_value (fst (chatForm_submit (page "   " "7"))) = lit "   ".
Proof.
  split; [reflexivity|].
  exact (blank_submit_keeps_input (page "   " "7") eq_refl).
Defined.

(** * Examples for the further properties *)


Lemma init_stops_when_list_fails_witness :
  exists w1,
    run env_reject init (page "" "12") = (w1, Rejected) /\
    trace w1 = [CFetch (GET (lit "/api/conversations"))].
Proof.
  destruct (init_stops_when_list_fails env_reject (page "" "12")
              (or_introl (fun _ => eq_refl)))
    as (w1 & E & T & _).
  exists w1. split; [exact E | exact T].
Defined.

Lemma init_requests_history_of_NaN_witness :
  parseInt10 (convIdInput_value (page "" "")) = NaN /\
  In (CFetch (GET (lit "/api/history/NaN")))
     (trace (fst (run env_full init (page "" "")))).
Proof.
  split; [reflexivity|].
  exact (init_requests_history_of_NaN env_full (page "" "") a_response
           [a_conversation] eq_refl (fun _ => eq_refl) (fun _ => eq_refl)).
Defined.

Lemma press_granted_starts_recording_witness :
  mediaDevices blank = true /\
  exists w1,
    run env_full micBtn_mousedown blank = (w1, Fulfilled) /\
    recording w1 = true /\ chunks w1 = [].
Proof.
  split; [reflexivity|].
  destruct (press_granted_starts_recording env_full blank a_stream eq_refl
              (fun _ => eq_refl))
    as (w1 & E & _ & _ & C & R & _).
  exists w1. split; [exact E|]. split; [exact R | exact C].
Defined.

Lemma press_denied_changes_nothing_witness :
  mediaDevices blank = true /\
  exists w1,
    run env_reject micBtn_mousedown blank = (w1, Rejected) /\
    recording w1 = false /\ mediaRecorder w1 = None.
Proof.
  split; [reflexivity|].
  destruct (press_denied_changes_nothing env_reject blank eq_refl
              (fun _ => eq_refl))
    as (w1 & E & _ & M & _ & R & _).
  exists w1. split; [exact E|]. split; [exact R | exact M].
Defined.

Lemma upload_sends_NaN_id_witness :
  parseInt10 (convIdInput_value (page "" "abc")) = NaN /\
  exists w1 rq k fd,
    recorder_onstop (page "" "abc") = (w1, Await (Fetch rq) k) /\
    body rq = FormBody fd /\
    nth_error fd 1 = Some (lit "conversation_id", FString (lit "NaN")).
Proof.
  split; [reflexivity|].
  destruct (upload_sends_NaN_id (page "" "abc") eq_refl)
    as (w1 & rq & k & fd & E & _ & B & N).
  exists w1, rq, k, fd. split; [exact E|]. split; [exact B | exact N].
Defined.



Lemma failed_submit_is_not_rolled_back_witness :
  trim (textInput_value (page "hi" "7")) <> [] /\
  exists w1,
    run env_bad_json chatForm_submit (page "hi" "7") = (w1, Rejected) /\
    messagesDiv w1 = [mkBubble (lit "msg user") (lit "hi") []] /\
    textInput_value w1 = [].
Proof.
  assert (H : trim (textInput_value (page "hi" "7")) <> [])
    by (vm_compute; discriminate).
  split; [exact H|].
  destruct (failed_submit_is_not_rolled_back env_bad_json (page "hi" "7") H
              (or_intror (fun _ _ => eq_refl)))
    as (w1 & E & M & T & _).
  exists w1. split; [exact E|]. split; [exact M | exact T].
Defined.

Lemma resubmit_without_typing_is_noop_witness :
  trim (textInput_value (page "hi" "7")) <> [] /\
  exists w1 rq k,
    chatForm_submit (page "hi" "7") = (w1, Await (Fetch rq) k) /\
    chatForm_submit w1 = (log CPreventDefault w1, Done).
Proof.
  assert (H : trim (textInput_value (page "hi" "7")) <> [])
    by (vm_compute; discriminate).
  split; [exact H|].
  exact (resubmit_without_typing_is_noop (page "hi" "7") H).
Defined.



(** An execution: a press, the grant of the microphone, and the first
    segment of the initializer while the recorder records. *)
Lemma sample_execution :
  exists l ps, exec (page "hi" "7", []) l (sample_world, ps).
Proof.
  eexists _, _.
  eapply exec_cons; [apply (step_event MouseDown); reflexivity|].
  eapply exec_cons;
    [apply (step_fulfil _ GetUserMedia _ a_stream _ [] []); reflexivity|].
  eapply exec_cons; [apply (step_event Load); reflexivity|].
  apply exec_nil.
Qed.

Lemma fresh_page : fresh (page "hi" "7").
Proof. repeat split; constructor. Qed.


Lemma only_api_requests_witness :
  fresh (page "hi" "7") /\
  In (CFetch (GET (lit "/api/conversations"))) (trace sample_world) /\
  (GET (lit "/api/conversations") = GET (lit "/api/conversations")
   \/ (exists n, GET (lit "/api/conversations")
                 = GET (lit "/api/history/" ++ toString n))
   \/ (url (GET (lit "/api/conversations")) = lit "/api/chat" /\
       method (GET (lit "/api/conversations")) = lit "POST")
   \/ (url (GET (lit "/api/conversations")) = lit "/api/say" /\
       method (GET (lit "/api/conversations")) = lit "POST")).
Proof.
  assert (Hin : In (CFetch (GET (lit "/api/conversations"))) (trace sample_world)).
  { cbn. right. right. right. left. reflexivity. }
  split; [exact fresh_page|]. split; [exact Hin|].
  destruct sample_execution as (l & ps & Ex).
  exact (only_api_requests (page "hi" "7") l (sample_world, ps) _
           fresh_page Ex Hin).
Defined.

Lemma recording_flag_means_recorder_witness :
  fresh (page "hi" "7") /\
  recording sample_world = true /\
  micBtn_textContent sample_world = record_glyph ++ lit " Recording...".
Proof.
  split; [exact fresh_page|]. split; [reflexivity|].
  destruct sample_execution as (l & ps & Ex).
  exact (proj2 (recording_flag_means_recorder (page "hi" "7") l
                  (sample_world, ps) fresh_page Ex eq_refl)).
Defined.

Lemma failed_upload_shows_nothing_witness :
  exists w1 rq,
    run env_bad_json recorder_onstop (page "" "7") = (w1, Rejected) /\
    url rq = lit "/api/say" /\
    messagesDiv w1 = [].
Proof.
  destruct (failed_upload_shows_nothing env_bad_json (page "" "7")
              (or_intror (fun _ _ => eq_refl)))
    as (w1 & rq & E & _ & U & M & _).
  exists w1, rq. split; [exact E|]. split; [exact U | exact M].
Defined.

Lemma press_then_release_returns_to_idle_witness :
  mediaDevices blank = true /\
  recording (run_events env_full [MouseDown; MouseLeave] blank) = false /\
  micBtn_textContent (run_events env_full [MouseDown; MouseLeave] blank) = mic_glyph.
Proof.
  split; [reflexivity|].
  destruct (press_then_release_returns_to_idle env_full blank MouseLeave a_stream
              eq_refl (or_intror eq_refl) (fun _ => eq_refl))
    as (R & L & _).
  split; [exact R | exact L].
Defined.

